(** * satellite-wallpaper: the deployment orchestrator and the wallpaper daemon

    A shallow embedding of [deploy-wallpaper.py] and [wallpaper_daemon.py].

    The orchestrator works on a filesystem; it is modelled as a tree of
    files and directories addressed by paths, threaded through a small
    state-and-exception monad together with the lines the program prints.
    The daemon is modelled as a transition function over the observations
    one polling tick makes. *)

From Stdlib Require Import ZArith List Ascii String DecimalString DecimalNat.
From stdpp Require Import base list strings sorting gmap.

Local Open Scope string_scope.
Local Open Scope list_scope.
Local Set Warnings "-register-all".

(** ** Filesystem *)

(** File contents are bytes. *)
Abbreviation bytes := (list Byte.byte).

(** A path is the list of its components below the root of the filesystem
    (a [pathlib.Path]); [p / name] appends one component.  A name stands for
    one component: it holds no separator and is neither empty nor a dot
    name.  Joining a path with a string that need not be a name is
    [joinpath], below. *)
Abbreviation path := (list string).
Notation "p </> name" := (p ++ [name]) (at level 50, left associativity).

(** [s.split("/")] *)
Fixpoint components (s : string) : list string :=
  match s with
  | EmptyString => [EmptyString]
  | String c s' =>
      if Ascii.eqb c "/" then EmptyString :: components s'
      else
        match components s' with
        | piece :: pieces => String c piece :: pieces
        | [] => [String c EmptyString]
        end
  end.

(** The components [pathlib] keeps of a string: those between separators,
    the empty ones and [.] dropped; [..] is kept as it stands. *)
Definition parts (s : string) : list string :=
  List.filter
    (fun piece => negb (String.eqb piece "") && negb (String.eqb piece "."))
    (components s).

Definition is_absolute (s : string) : bool := String.prefix "/" s.

(** [p / s] for any string [s], as [pathlib] joins on a POSIX system: an
    absolute [s] replaces [p], any other [s] adds its components to [p]; so
    [p / ""] and [p / "."] are [p] itself.  The join is by name only: a
    component [..] stays in the path. *)
Definition joinpath (p : path) (s : string) : path :=
  if is_absolute s then parts s else p ++ parts s.


(** A string joins to a path at or below the one it is joined to: it is not
    absolute and has no component [..]. *)
Definition stays_below (s : string) : bool :=
  negb (is_absolute s)
  && forallb (fun piece => negb (String.eqb piece "..")) (parts s).

(** Files carry their contents and [st_mtime]; directories carry [st_mtime]
    and their listing, in the order [iterdir] yields it.  [st_mtime] is a
    float in Python; only its order is used, so it is an integer here. *)
Inductive node : Type :=
| File (mtime : Z) (data : bytes)
| Dir (mtime : Z) (entries : list (string * node)).

(** The exceptions the modelled calls raise. *)
Inductive exn : Type :=
| FileNotFoundError
| NotADirectoryError
| IsADirectoryError
| FileExistsError
| SameFileError
| ValueError
| KeyError (key : string).

Inductive outcome (A : Type) : Type :=
| Ok (a : A)
| Raise (e : exn).
Arguments Ok {A} a.
Arguments Raise {A} e.

(** First entry of a listing with the given name. *)
Fixpoint assoc (k : string) (es : list (string * node)) : option node :=
  match es with
  | [] => None
  | (k', v) :: es' => if String.eqb k k' then Some v else assoc k es'
  end.

(** Replace the entry named [k] where it stands, or add it at the end of
    the listing. *)
Fixpoint upsert (k : string) (v : node) (es : list (string * node))
  : list (string * node) :=
  match es with
  | [] => [(k, v)]
  | (k', v') :: es' =>
      if String.eqb k k' then (k, v) :: es' else (k', v') :: upsert k v es'
  end.

(** What [os.stat] finds at a path. *)
Fixpoint stat (p : path) (n : node) : option node :=
  match p with
  | [] => Some n
  | x :: p' =>
      match n with
      | Dir _ es =>
          match assoc x es with
          | Some c => stat p' c
          | None => None
          end
      | File _ _ => None
      end
  end.

(** Put node [v] at path [p]: every proper ancestor must be an existing
    directory; the last component is replaced or created. *)
Fixpoint put (p : path) (v : node) (n : node) : outcome node :=
  match p with
  | [] => Ok v
  | x :: p' =>
      match n with
      | Dir m es =>
          match p' with
          | [] => Ok (Dir m (upsert x v es))
          | _ :: _ =>
              match assoc x es with
              | Some c =>
                  match put p' v c with
                  | Ok c' => Ok (Dir m (upsert x c' es))
                  | Raise e => Raise e
                  end
              | None => Raise FileNotFoundError
              end
          end
      | File _ _ => Raise NotADirectoryError
      end
  end.

Definition is_dir (fs : node) (p : path) : bool :=
  match stat p fs with
  | Some (Dir _ _) => true
  | _ => false
  end.

(** Where the components [comps] lead from [cur], as the system follows
    them: every step starts from a directory; [..] leads to the parent
    directory, and from the root to the root itself.  No directory of the
    tree lists a dot name, so [stat] alone finds nothing at a path with a
    component [..]. *)
Fixpoint follow (fs : node) (cur : path) (comps : list string) : option path :=
  match comps with
  | [] => Some cur
  | x :: rest =>
      if is_dir fs cur then
        follow fs (if String.eqb x ".." then removelast cur else cur </> x)
          rest
      else None
  end.

(** [(p / s).is_dir()] for any string [s]: whether the joined path leads
    to a directory. *)
Definition is_dir_joined (fs : node) (p : path) (s : string) : bool :=
  match follow fs (if is_absolute s then [] else p) (parts s) with
  | Some q => is_dir fs q
  | None => false
  end.

Definition is_file (fs : node) (p : path) : bool :=
  match stat p fs with
  | Some (File _ _) => true
  | _ => false
  end.

Definition exists_ (fs : node) (p : path) : bool :=
  match stat p fs with
  | Some _ => true
  | None => false
  end.

(** [p.stat().st_mtime] *)
Definition st_mtime (fs : node) (p : path) : outcome Z :=
  match stat p fs with
  | Some (File m _) => Ok m
  | Some (Dir m _) => Ok m
  | None => Raise FileNotFoundError
  end.

(** [p.iterdir()]: the names in the directory, in listing order. *)
Definition iterdir (fs : node) (p : path) : outcome (list string) :=
  match stat p fs with
  | Some (Dir _ es) => Ok (map fst es)
  | Some (File _ _) => Raise NotADirectoryError
  | None => Raise FileNotFoundError
  end.

(** The names in a directory, in listing order; none when the path is not a
    directory. *)
Definition names_of (fs : node) (p : path) : list string :=
  match stat p fs with
  | Some (Dir _ es) => map fst es
  | _ => []
  end.

(** [p.read_bytes()] *)
Definition read_bytes (fs : node) (p : path) : outcome bytes :=
  match stat p fs with
  | Some (File _ d) => Ok d
  | Some (Dir _ _) => Raise IsADirectoryError
  | None => Raise FileNotFoundError
  end.

(** [p.write_bytes(d)] at time [now]: creates or truncates the file. *)
Definition write_bytes (now : Z) (p : path) (d : bytes) (fs : node)
  : outcome node :=
  match stat p fs with
  | Some (Dir _ _) => Raise IsADirectoryError
  | _ => put p (File now d) fs
  end.

(** [p.mkdir(exist_ok=True)] at time [now]. *)
Definition mkdir_exist_ok (now : Z) (p : path) (fs : node) : outcome node :=
  match stat p fs with
  | Some (Dir _ _) => Ok fs
  | Some (File _ _) => Raise FileExistsError
  | None => put p (Dir now []) fs
  end.

(** Last component of a path ([os.path.basename]). *)
Definition basename (p : path) : string := List.last p "".

(** [shutil.copy2(src, dst)]: when [dst] is a directory the file goes into
    it under the name of [src]; copying a file onto itself is refused; the
    copy carries the contents and the modification time of the source. *)
Definition copy2 (src dst : path) (fs : node) : outcome node :=
  let dst' := if is_dir fs dst then dst </> basename src else dst in
  if decide (src = dst') then
    match stat src fs with
    | Some _ => Raise SameFileError
    | None => Raise FileNotFoundError
    end
  else
    match stat src fs with
    | Some (File m d) =>
        match stat dst' fs with
        | Some (Dir _ _) => Raise IsADirectoryError
        | _ => put dst' (File m d) fs
        end
    | Some (Dir _ _) => Raise IsADirectoryError
    | None => Raise FileNotFoundError
    end.

(** ** The orchestrator's effects *)

(** The lines the orchestrator prints, one constructor per [print] call of
    [deploy-wallpaper.py]. *)
Inductive event : Type :=
| EDeploying (key : string)
| ESourceNotFound (key : string) (output_root : path)
| ENoRuns (parent_dir : path)
| ELatestSource (name : string)
| EStaging
| ENoPng
| EStaged (count : nat)
| EStageOnly
| ECleanupSkipped
| ENoMaterials (project_path : path)
| EDeployingFrames
| EDeployed (copied : nat)
| EManifestWritten
| EManifestWarning (e : exn)
| EMissingConfig (file : string)
| EInvalidJson (file : string)
| ESkipping (key : string)
| EAllDone.

(** The state a run threads: the filesystem, the clock that stamps what is
    written, and what was printed so far.  The clock stands still during a
    run, and writing into a directory leaves the directory's own
    modification time alone: the only modification times the program reads
    are those of run folders, which it never writes to. *)
Record world : Type := World {
  root : node;
  now : Z;
  out : list event
}.

Definition M (A : Type) : Type := world -> outcome A * world.

Definition ret {A} (a : A) : M A := fun w => (Ok a, w).

Definition bind {A B} (c : M A) (k : A -> M B) : M B :=
  fun w =>
    match c w with
    | (Ok a, w') => k a w'
    | (Raise e, w') => (Raise e, w')
    end.

Definition raise {A} (e : exn) : M A := fun w => (Raise e, w).

(** [try: c except Exception as e: h e] *)
Definition try_except {A} (c : M A) (h : exn -> M A) : M A :=
  fun w =>
    match c w with
    | (Ok a, w') => (Ok a, w')
    | (Raise e, w') => h e w'
    end.

Notation "'let*' x ':=' c 'in' k" := (bind c (fun x => k))
  (at level 10, x name, c at level 100, k at level 200).
Notation "c ';;' k" := (bind c (fun _ => k))
  (at level 100, k at level 200, right associativity).

Definition print (e : event) : M unit :=
  fun w => (Ok tt, World (root w) (now w) (out w ++ [e])).

(** A read of the filesystem. *)
Definition reads {A} (f : node -> A) : M A := fun w => (Ok (f (root w)), w).

(** A read that may raise. *)
Definition query {A} (f : node -> outcome A) : M A :=
  fun w => (f (root w), w).

(** A write: the filesystem changes only when the call succeeds. *)
Definition update (f : Z -> node -> outcome node) : M unit :=
  fun w =>
    match f (now w) (root w) with
    | Ok fs' => (Ok tt, World fs' (now w) (out w))
    | Raise e => (Raise e, w)
    end.

(** [for x in xs: body x] *)
Fixpoint for_each {A} (xs : list A) (body : A -> M unit) : M unit :=
  match xs with
  | [] => ret tt
  | x :: xs' => body x ;; for_each xs' body
  end.

(** ** Names, patterns and sorting *)

(** [s] ends with [suf]. *)
Definition ends_with (suf s : string) : bool :=
  String.eqb
    (substring (String.length s - String.length suf) (String.length suf) s)
    suf.

(** [fnmatch] of a name against the pattern [pre*suf] (one star, no other
    wildcard), case-sensitive as on a POSIX system.  The star also matches
    nothing, and names that start with a dot are not set apart. *)
Definition fnmatch_star (pre suf name : string) : bool :=
  (String.length pre + String.length suf <=? String.length name)%nat
  && String.prefix pre name && ends_with suf name.

(** [dir.glob("pre*suf")]: the matching names of the directory in listing
    order; nothing when [dir] is not a directory. *)
Definition glob (fs : node) (dir : path) (pre suf : string) : list string :=
  filter (fun n => fnmatch_star pre suf n) (names_of fs dir).

(** [sorted] on the paths of one directory orders them by name, character
    by character (for the bytes of UTF-8 names that is the order of the code
    points). *)
Definition sorted (names : list string) : list string :=
  merge_sort String.le names.

(** [list(enumerate(xs, start))] *)
Fixpoint enumerate_from {A} (start : nat) (xs : list A) : list (nat * A) :=
  match xs with
  | [] => []
  | x :: xs' => (start, x) :: enumerate_from (S start) xs'
  end.

(** [s.zfill(width)] on a string of digits. *)
Definition zfill (width : nat) (s : string) : string :=
  String.concat "" (repeat "0" (width - String.length s)) +:+ s.

(** [f"{i:03d}"] *)
Definition format_03d (i : nat) : string :=
  zfill 3 (NilZero.string_of_uint (Nat.to_uint i)).

(** [f"frame_{i:03d}.png"] *)
Definition frame_name (i : nat) : string :=
  "frame_" +:+ format_03d i +:+ ".png".

(** Reading a string of digits back as a number. *)
Definition read_decimal (s : string) : option nat :=
  Nat.of_uint <$> NilEmpty.uint_of_string s.

(** [max(xs, key=key)]: the first element whose key no other exceeds. *)
Fixpoint max_from {A} (key : A -> outcome Z) (best : A) (kbest : Z)
  (xs : list A) : outcome A :=
  match xs with
  | [] => Ok best
  | x :: xs' =>
      match key x with
      | Ok k =>
          if (kbest <? k)%Z then max_from key x k xs'
          else max_from key best kbest xs'
      | Raise e => Raise e
      end
  end.

Definition py_max {A} (xs : list A) (key : A -> outcome Z) : outcome A :=
  match xs with
  | [] => Raise ValueError
  | x :: xs' =>
      match key x with
      | Ok k => max_from key x k xs'
      | Raise e => Raise e
      end
  end.

(** ** deploy-wallpaper.py *)

(** One record of [projects.json]: a JSON object whose two fields may be
    absent. *)
Record project_record : Type := ProjectRecord {
  view_name_base : option string;
  project_path : option path
}.

(** What reading and parsing a configuration file gives. *)
Inductive config (A : Type) : Type :=
| Loaded (a : A)
| Missing
| Invalid.
Arguments Loaded {A} a.
Arguments Missing {A}.
Arguments Invalid {A}.

Section Orchestrator.

(** The helpers and constants [deploy-wallpaper.py] imports from
    [config_loader], and the [STAGE_ONLY] flag it reads from the
    environment. *)
Variable view : Type.
Variable build_view_key : view -> string.
Variable canonicalize : string -> string.
Variable OUTPUT_BASE_DIR : path.
Variable STAGE_ONLY : bool.

(** The fallback scan of [find_parent_dir_for_key]. *)
Fixpoint scan_children (fs : node) (output_root : path)
  (canonical_key : string) (children : list string) : option path :=
  match children with
  | [] => None
  | child :: rest =>
      if negb (is_dir fs (output_root </> child)) then
        scan_children fs output_root canonical_key rest
      else if String.eqb (canonicalize child) canonical_key then
        Some (output_root </> child)
      else scan_children fs output_root canonical_key rest
  end.

(** The key is any string: [direct] is what [pathlib] makes of
    [output_root / canonical_key], and [direct.is_dir()] follows it as the
    system does.  The paths handed on to staging are taken by their
    components, none of them [..]. *)
Definition find_parent_dir_for_key (output_root : path)
  (canonical_key : string) : M (option path) :=
  let direct := joinpath output_root canonical_key in
  let* d := reads (fun fs => is_dir_joined fs output_root canonical_key) in
  if d then ret (Some direct)
  else
    let* children := query (fun fs => iterdir fs output_root) in
    reads (fun fs => scan_children fs output_root canonical_key children).

(** The run folders of a parent directory. *)
Definition all_runs (fs : node) (parent_dir : path) (children : list string)
  : list string :=
  filter (fun d => is_dir fs (parent_dir </> d) && negb (String.eqb d "staging"))
    children.

(** The copy-and-rename loop of [stage_from_latest_run]. *)
Definition stage_frames (latest_run_folder staging_dir : path)
  (source_files : list string) : M unit :=
  for_each (enumerate_from 0 source_files) (fun '(i, frame) =>
    let* data := query (fun fs => read_bytes fs (latest_run_folder </> frame)) in
    update (fun t => write_bytes t (staging_dir </> frame_name i) data)).

Definition stage_from_latest_run (parent_dir : path) : M (option path) :=
  let* children := query (fun fs => iterdir fs parent_dir) in
  let* runs := reads (fun fs => all_runs fs parent_dir children) in
  match runs with
  | [] => print (ENoRuns parent_dir) ;; ret None
  | _ :: _ =>
      let* latest := query (fun fs =>
        py_max runs (fun d => st_mtime fs (parent_dir </> d))) in
      let latest_run_folder := parent_dir </> latest in
      print (ELatestSource latest) ;;
      let staging_dir := parent_dir </> "staging" in
      update (fun t => mkdir_exist_ok t staging_dir) ;;
      print EStaging ;;
      let* source_files :=
        reads (fun fs => sorted (glob fs latest_run_folder "" ".png")) in
      match source_files with
      | [] => print ENoPng ;; ret None
      | _ :: _ =>
          stage_frames latest_run_folder staging_dir source_files ;;
          print (EStaged (List.length source_files)) ;;
          let src_manifest := latest_run_folder </> "manifest.json" in
          let* present := reads (fun fs => exists_ fs src_manifest) in
          (if present then
             update (fun _ =>
               copy2 src_manifest (staging_dir </> "current_manifest.json"))
           else ret tt) ;;
          ret (Some staging_dir)
      end
  end.

(** The copy loop of [deploy_latest_frames], with its counter. *)
Fixpoint copy_frames (staging_dir materials_path : path)
  (frames : list string) (copied : nat) : M nat :=
  match frames with
  | [] => ret copied
  | new_frame :: rest =>
      update (fun _ => copy2 (staging_dir </> new_frame) materials_path) ;;
      copy_frames staging_dir materials_path rest (S copied)
  end.

(** The guarded manifest copy that ends [deploy_latest_frames]. *)
Definition copy_manifest_to_project (staging_dir project : path) : M unit :=
  try_except
    (let manifest_in_stage := staging_dir </> "current_manifest.json" in
     let* present := reads (fun fs => exists_ fs manifest_in_stage) in
     if present then
       update (fun _ =>
         copy2 manifest_in_stage (project </> "current_manifest.json")) ;;
       print EManifestWritten
     else ret tt)
    (fun e => print (EManifestWarning e)).

Definition deploy_latest_frames (view_config : view) (project : path)
  : M unit :=
  let key := build_view_key view_config in
  print (EDeploying key) ;;
  let* parent := find_parent_dir_for_key OUTPUT_BASE_DIR key in
  match parent with
  | None => print (ESourceNotFound key OUTPUT_BASE_DIR)
  | Some parent_dir =>
      let* staged := stage_from_latest_run parent_dir in
      match staged with
      | None => ret tt
      | Some staging_dir =>
          if STAGE_ONLY then
            print EStageOnly ;; print ECleanupSkipped
          else
            let materials_path := project </> "materials" in
            let* has_materials := reads (fun fs => is_dir fs materials_path) in
            if negb has_materials then print (ENoMaterials project)
            else
              print EDeployingFrames ;;
              let* frames :=
                reads (fun fs => sorted (glob fs staging_dir "frame_" ".png")) in
              let* copied := copy_frames staging_dir materials_path frames 0 in
              print (EDeployed copied) ;;
              copy_manifest_to_project staging_dir project ;;
              print ECleanupSkipped
      end
  end.

(** The loop of [main] that builds the project map. *)
Fixpoint build_projects (projs_raw : list project_record)
  (projects : gmap string path) : outcome (gmap string path) :=
  match projs_raw with
  | [] => Ok projects
  | p :: rest =>
      let name := default "" (view_name_base p) in
      let normalized := canonicalize name in
      match project_path p with
      | Some target => build_projects rest (<[normalized := target]> projects)
      | None => Raise (KeyError "project_path")
      end
  end.

(** The loop of [main] over the views. *)
Definition deploy_view (projects : gmap string path) (v : view) : M unit :=
  let key := build_view_key v in
  match projects !! key with
  | Some target => deploy_latest_frames v target
  | None =>
      let alt_key := canonicalize key in
      match projects !! alt_key with
      | Some target => deploy_latest_frames v target
      | None => print (ESkipping key)
      end
  end.

Definition main (views_json : config (list view))
  (projects_json : config (list project_record)) : M unit :=
  match views_json with
  | Missing => print (EMissingConfig "views_config.json")
  | Invalid => print (EInvalidJson "views_config.json")
  | Loaded views =>
      match projects_json with
      | Missing => print (EMissingConfig "projects.json")
      | Invalid => print (EInvalidJson "projects.json")
      | Loaded projs_raw =>
          let* projects := query (fun _ => build_projects projs_raw ∅) in
          for_each views (deploy_view projects) ;;
          print EAllDone
      end
  end.

(** What the fallback scan looks for in a child of the output root. *)
Definition legacy_match (fs : node) (output_root : path) (key child : string)
  : Prop :=
  is_dir fs (output_root </> child) = true ∧ canonicalize child = key.

(** The key [main] files a record of [projects.json] under. *)
Definition record_key (r : project_record) : string :=
  canonicalize (default "" (view_name_base r)).

(** The path of the last record filed under a key. *)
Fixpoint last_filed (k : string) (rs : list project_record) : option path :=
  match rs with
  | [] => None
  | r :: rest =>
      match last_filed k rest with
      | Some p => Some p
      | None => if decide (record_key r = k) then project_path r else None
      end
  end.

(** The folders a batch may write to: the output root and, unless it only
    stages, the project folders of the records. *)
Definition batch_roots (STAGE_ONLY : bool)
  (projects_json : config (list project_record)) : list path :=
  OUTPUT_BASE_DIR ::
  match STAGE_ONLY, projects_json with
  | false, Loaded rs => omap project_path rs
  | _, _ => []
  end.

End Orchestrator.

(** ** wallpaper_daemon.py *)

(** [needle in hay] on strings. *)
Fixpoint contains (needle hay : string) : bool :=
  String.prefix needle hay ||
  match hay with
  | EmptyString => false
  | String _ hay' => contains needle hay'
  end.

(** The value of [last_state]: [None], ["static"] or ["satellite"]. *)
Inductive daemon_state : Type :=
| Unknown
| Static
| Satellite.

Definition daemon_state_eqb (a b : daemon_state) : bool :=
  match a, b with
  | Unknown, Unknown | Static, Static | Satellite, Satellite => true
  | _, _ => false
  end.

(** What the daemon does to the outside, in order: the lines it prints, the
    two wallpaper calls and the pause that ends a tick. *)
Inductive action : Type :=
| PrintRunning
| PrintDetected
| PrintNoStaticImages
| PrintRestoring
| SetStaticWallpaper (image_path : path)
| RestoreWallpaperEngine
| Sleep (seconds : Z).

(** What one tick observes: the result of running [tasklist] (its decoded
    output, or the exception the call raised), the filesystem
    [pick_random_static] lists, and the draw [random.choice] makes. *)
Record observation : Type := Observation {
  tasklist : outcome string;
  files : node;
  draw : nat
}.

Definition CHECK_INTERVAL : Z := 5%Z.

Section Daemon.

(** The constants imported from [config_loader], and [str.lower]. *)
Variable STATIC_DIR : path.
Variable DEPLOY_SCRIPT_NAME : string.
Variable lower : string -> string.

Definition is_deploy_running (query_result : outcome string) : bool :=
  match query_result with
  | Ok output =>
      let tasks := lower output in
      contains (lower DEPLOY_SCRIPT_NAME) tasks
      || (contains "python" tasks && contains "deploy-wallpaper.py" tasks)
  | Raise _ => false
  end.

(** [random.choice(choices)] with the draw given. *)
Definition random_choice (choices : list path) (r : nat) : option path :=
  nth_error choices (r mod List.length choices)%nat.

(** The [choices] of [pick_random_static]: the images of the static
    folder. *)
Definition static_pool (fs : node) : list path :=
  map (fun n => STATIC_DIR </> n) (glob fs STATIC_DIR "" ".jpg")
  ++ map (fun n => STATIC_DIR </> n) (glob fs STATIC_DIR "" ".png").

Definition pick_random_static (fs : node) (r : nat) : option path :=
  let choices := static_pool fs in
  match choices with
  | [] => None
  | _ :: _ => random_choice choices r
  end.

(** One pass through the body of the [while True] loop of [daemon_loop]:
    the new [last_state] and what the pass did. *)
Definition tick (obs : observation) (last_state : daemon_state)
  : daemon_state * list action :=
  let deploy_active := is_deploy_running (tasklist obs) in
  if deploy_active && negb (daemon_state_eqb last_state Static) then
    match pick_random_static (files obs) (draw obs) with
    | Some img =>
        (Static, [PrintDetected; SetStaticWallpaper img; Sleep CHECK_INTERVAL])
    | None =>
        (last_state, [PrintDetected; PrintNoStaticImages; Sleep CHECK_INTERVAL])
    end
  else if negb deploy_active && negb (daemon_state_eqb last_state Satellite) then
    (Satellite, [PrintRestoring; RestoreWallpaperEngine; Sleep CHECK_INTERVAL])
  else (last_state, [Sleep CHECK_INTERVAL]).

(** The loop over the observations of its first ticks. *)
Fixpoint ticks (observations : list observation) (last_state : daemon_state)
  : daemon_state * list action :=
  match observations with
  | [] => (last_state, [])
  | obs :: rest =>
      let '(s, done) := tick obs last_state in
      let '(s', later) := ticks rest s in
      (s', (done ++ later)%list)
  end.

(** [daemon_loop] up to the end of the tick that makes the last of the
    given observations. *)
Definition daemon_loop (observations : list observation)
  : daemon_state * list action :=
  let '(s, trace) := ticks observations Unknown in
  (s, PrintRunning :: trace).

End Daemon.

(** The wallpaper calls in a trace. *)
Definition is_wallpaper_call (a : action) : bool :=
  match a with
  | SetStaticWallpaper _ | RestoreWallpaperEngine => true
  | _ => false
  end.

Definition is_static_switch (a : action) : bool :=
  match a with
  | SetStaticWallpaper _ => true
  | _ => false
  end.

Definition wallpaper_calls (trace : list action) : list action :=
  List.filter is_wallpaper_call trace.

Definition static_switches (trace : list action) : nat :=
  List.length (List.filter is_static_switch trace).

(** * Vocabulary of the statements *)

(** The modification time [max] compares. *)
Definition mtime_of (fs : node) (p : path) : Z :=
  match st_mtime fs p with
  | Ok m => m
  | Raise _ => 0
  end.

(** [p] is a prefix of [q]: [q] is [p] or lies below it. *)
Fixpoint under (p q : path) : bool :=
  match p, q with
  | [], _ => true
  | x :: p', y :: q' => String.eqb x y && under p' q'
  | _ :: _, [] => false
  end.

(** Neither path lies at or below the other. *)
Definition apart (p q : path) : bool := negb (under p q) && negb (under q p).

(** A computation writes only under [S] when, however it ends, the clock
    is as before, what was printed is still there, everything at paths
    neither above nor below [S] is as before, and [S] has lost none of its
    names. *)
Definition writes_under {A} (S : path) (c : M A) : Prop :=
  ∀ w r w', c w = (r, w') →
    now w' = now w
    ∧ out w `prefix_of` out w'
    ∧ (∀ q, ¬ S `prefix_of` q → ¬ q `prefix_of` S →
            stat q (root w') = stat q (root w))
    ∧ names_of (root w) S ⊆ names_of (root w') S.

(** The wallpaper calls of a trace take turns, given the state held when
    the trace starts: no static image is set while [Static] is held and the
    live wallpaper is not restored while [Satellite] is held. *)
Fixpoint calls_alternate (held : daemon_state) (trace : list action) : bool :=
  match trace with
  | [] => true
  | SetStaticWallpaper _ :: rest =>
      negb (daemon_state_eqb held Static) && calls_alternate Static rest
  | RestoreWallpaperEngine :: rest =>
      negb (daemon_state_eqb held Satellite) && calls_alternate Satellite rest
  | _ :: rest => calls_alternate held rest
  end.

(** A path lies outside some folders when it is neither at, below nor above
    any of them. *)
Definition outside (roots : list path) (q : path) : Prop :=
  Forall (fun S => ¬ S `prefix_of` q ∧ ¬ q `prefix_of` S) roots.

(** A computation is confined to some folders when, however it ends, the
    clock is as before, what was printed is still there, and everything
    outside the folders is as before. *)
Definition confined {A} (roots : list path) (c : M A) : Prop :=
  ∀ w r w', c w = (r, w') →
    now w' = now w
    ∧ out w `prefix_of` out w'
    ∧ ∀ q, outside roots q → stat q (root w') = stat q (root w).

(** The state the wallpaper calls of a trace leave, from the state held
    before it: that of the last call, if any. *)
Fixpoint state_after_calls (held : daemon_state) (trace : list action)
  : daemon_state :=
  match trace with
  | [] => held
  | SetStaticWallpaper _ :: rest => state_after_calls Static rest
  | RestoreWallpaperEngine :: rest => state_after_calls Satellite rest
  | _ :: rest => state_after_calls held rest
  end.

Definition is_sleep (a : action) : bool :=
  match a with
  | Sleep _ => true
  | _ => false
  end.

(** A computation keeps the siblings of the entry [x] of a directory [P]
    when, however it ends, [P] is still a directory with the modification
    time it had, listing the same names in the same order, [x] apart. *)
Definition keeps_siblings {A} (P : path) (x : string) (c : M A) : Prop :=
  ∀ w r w' m es, c w = (r, w') → stat P (root w) = Some (Dir m es) →
    ∃ es', stat P (root w') = Some (Dir m es')
           ∧ filter (fun d => negb (String.eqb d x)) (map fst es')
             = filter (fun d => negb (String.eqb d x)) (map fst es).

(** * Sample inputs

    A small filesystem, used to run the definitions on concrete inputs. *)

Definition png_a : bytes := [Byte.x61; Byte.x01].
Definition png_b : bytes := [Byte.x62; Byte.x02].
Definition png_c : bytes := [Byte.x63; Byte.x03].
Definition png_x : bytes := [Byte.x78].
Definition png_y : bytes := [Byte.x79].
Definition png_z : bytes := [Byte.x7a].
Definition manifest_doc : bytes := [Byte.x7b; Byte.x7d].

(** Three run folders whose names do not follow their age; the newest one
    holds three frames and a manifest. *)
Definition sample_runs : list (string * node) :=
  [ ("zz_oldest", Dir 10 [("x.png", File 9 png_x); ("y.png", File 9 png_y)]);
    ("aa_newest", Dir 30 [("b.png", File 29 png_b);
                          ("a.png", File 29 png_a);
                          ("notes.txt", File 29 []);
                          ("c.png", File 29 png_c);
                          ("manifest.json", File 29 manifest_doc)]);
    ("mm_middle", Dir 20 [("z.png", File 19 png_z)]) ].

Definition sample_project : node :=
  Dir 5 [("materials", Dir 5 []); ("project.json", File 5 [])].

Definition sample_root : node :=
  Dir 0 [ ("out", Dir 0 [("deska", Dir 0 sample_runs)]);
          ("p1", sample_project) ].

Definition sample_world : world := World sample_root 100 [].

(** [str.lower] on ASCII text, for running the daemon on sample inputs. *)
Definition ascii_lower_char (c : ascii) : ascii :=
  let n := N_of_ascii c in
  if (65 <=? n)%N && (n <=? 90)%N then ascii_of_N (n + 32) else c.

Fixpoint ascii_lower (s : string) : string :=
  match s with
  | EmptyString => EmptyString
  | String c s' => String (ascii_lower_char c) (ascii_lower s')
  end.

(** A tick that sees the deploy script running while the folder of static
    images holds no image. *)
Definition sample_busy_no_images : observation :=
  Observation (Ok "cmd.exe  PYTHON.EXE  Deploy-Wallpaper.py")
    (Dir 0 [("static", Dir 0 [("readme.txt", File 0 [])])]) 7.

(** Drop the blanks a string starts with. *)
Fixpoint lstrip (s : string) : string :=
  match s with
  | String " " s' => lstrip s'
  | _ => s
  end.

(** Modelled from the spec: [config_loader.canonicalize] is not among the
    sources; the spec asks it to normalize case and surrounding blanks.  The
    theorems take [canonicalize] as a parameter; this instance, which
    lower-cases ASCII letters and drops surrounding blanks, only runs the
    examples. *)
Definition sample_canonicalize (s : string) : string :=
  ascii_lower (String.rev (lstrip (String.rev (lstrip s)))).

(** The records of the round-trip example: two base names that differ by
    case and blanks only. *)
Definition sample_projects : list project_record :=
  [ ProjectRecord (Some "Alpha") (Some ["p1"]);
    ProjectRecord (Some "alpha ") (Some ["p2"]) ].

(** The project file that sends the view [DeskA] to the project [p1]. *)
Definition sample_desk_projects : list project_record :=
  [ ProjectRecord (Some "deska") (Some ["p1"]) ].

(** The sample filesystem after an earlier deployment of a run of five
    frames: the staging folder still holds all five. *)
Definition sample_stale_staging : node :=
  Dir 8 [ ("frame_000.png", File 7 png_x);
          ("frame_001.png", File 7 png_y);
          ("frame_002.png", File 7 png_z);
          ("frame_003.png", File 7 png_x);
          ("frame_004.png", File 7 png_y) ].

Definition sample_stale_world : world :=
  World
    (Dir 0 [ ("out", Dir 0 [("deska",
                Dir 0 (("staging", sample_stale_staging) :: sample_runs))]);
             ("p1", sample_project) ])
    100 [].

(** A latest run whose [manifest.json] is a directory. *)
Definition sample_bad_manifest_world : world :=
  World
    (Dir 0 [ ("out", Dir 0 [
                ("deska", Dir 0 [
                   ("aa_newest", Dir 30 [("a.png", File 29 png_a);
                                         ("manifest.json", Dir 29 [])])]);
                ("deskb", Dir 0 [
                   ("run", Dir 10 [("b.png", File 9 png_b)])])]);
             ("p1", sample_project);
             ("p2", sample_project) ])
    100 [].

Definition sample_two_desks : list project_record :=
  [ ProjectRecord (Some "DeskA") (Some ["p1"]);
    ProjectRecord (Some "DeskB") (Some ["p2"]) ].

(** A parent directory whose only run holds no frame. *)
Definition sample_no_frames_world : world :=
  World
    (Dir 0 [("out", Dir 0 [("deska",
               Dir 0 [("run", Dir 5 [("notes.txt", File 4 [])])])])])
    100 [].

(** A parent directory in which [staging] is a regular file. *)
Definition sample_blocked_world : world :=
  World
    (Dir 0 [("out", Dir 0 [("deska",
               Dir 0 [("staging", File 1 []);
                      ("run", Dir 5 [("a.png", File 4 png_a)])])])])
    100 [].

(** A staging folder that still holds the manifest of an earlier run, beside
    a latest run that has none. *)
Definition sample_stale_manifest_world : world :=
  World
    (Dir 0 [ ("out", Dir 0 [("deska", Dir 0 [
                ("staging", Dir 8 [("frame_000.png", File 7 png_x);
                                   ("current_manifest.json",
                                    File 7 manifest_doc)]);
                ("run", Dir 10 [("b.png", File 9 png_b)])])]) ])
    100 [].

(** * Facts about the filesystem model *)

Lemma assoc_upsert_eq k v es : assoc k (upsert k v es) = Some v.
Proof.
  induction es as [|[k' v'] es IH]; simpl.
  - by rewrite String.eqb_refl.
  - destruct (String.eqb k k') eqn:E; simpl.
    + by rewrite String.eqb_refl.
    + by rewrite E.
Qed.

Lemma assoc_upsert_ne k k' v es :
  k ≠ k' → assoc k' (upsert k v es) = assoc k' es.
Proof.
  intros Hne. induction es as [|[k0 v0] es IH]; simpl.
  - destruct (String.eqb k' k) eqn:E; [|done].
    apply String.eqb_eq in E. congruence.
  - destruct (String.eqb k k0) eqn:E; simpl.
    + apply String.eqb_eq in E. subst k0.
      destruct (String.eqb k' k) eqn:E2; [|done].
      apply String.eqb_eq in E2. congruence.
    + by destruct (String.eqb k' k0).
Qed.


Lemma assoc_name_Some k es : k ∈ map fst es → is_Some (assoc k es).
Proof.
  induction es as [|[k' v'] es IH]; simpl.
  - intros H. by apply elem_of_nil in H.
  - intros H. destruct (String.eqb k k') eqn:E; [by eexists|].
    apply elem_of_cons in H as [->|H]; [|auto].
    by rewrite String.eqb_refl in E.
Qed.

(** Writing an entry keeps the listing as it was, or adds the name at its
    end. *)
Lemma names_upsert k v es :
  map fst (upsert k v es) =
  match assoc k es with
  | Some _ => map fst es
  | None => (map fst es ++ [k])
  end.
Proof.
  induction es as [|[k' v'] es IH]; simpl; [done|].
  destruct (String.eqb k k') eqn:E; simpl.
  - apply String.eqb_eq in E. by subst.
  - rewrite IH. by destruct (assoc k es).
Qed.

Lemma stat_app p q n : stat (p ++ q) n = stat p n ≫= stat q.
Proof.
  revert n. induction p as [|x p IH]; intros n; simpl; [done|].
  destruct n as [|m es]; [done|].
  destruct (assoc x es); [apply IH|done].
Qed.

Lemma stat_child d x fs m es :
  stat d fs = Some (Dir m es) → stat (d </> x) fs = assoc x es.
Proof.
  intros H. rewrite stat_app, H. simpl. by destruct (assoc x es).
Qed.

(** ** Joining a path with a string *)









(** Joined with a string that stays below, a path is extended. *)
Lemma joinpath_below (p : path) s :
  stays_below s = true → p `prefix_of` joinpath p s.
Proof.
  unfold stays_below, joinpath. rewrite andb_true_iff, negb_true_iff.
  intros [-> _]. by apply prefix_app_r.
Qed.

(** Two paths that part ways below a common directory. *)
Lemma siblings_unrelated (d : path) x y r r' :
  x ≠ y → ¬ (d ++ x :: r) `prefix_of` (d ++ y :: r').
Proof.
  intros Hne H. apply prefix_app_inv in H.
  by apply prefix_cons_inv_1 in H.
Qed.

(** A successful [put] changes nothing at paths that are neither above nor
    below the written one. *)
Lemma stat_put_unrelated p v fs fs' q :
  put p v fs = Ok fs' →
  ¬ p `prefix_of` q → ¬ q `prefix_of` p →
  stat q fs' = stat q fs.
Proof.
  revert fs fs' q. induction p as [|x p IH]; intros fs fs' q Hput Hpq Hqp.
  - destruct Hpq. apply prefix_nil.
  - destruct q as [|y q]; [destruct Hqp; apply prefix_nil|].
    simpl in Hput. destruct fs as [|m es]; [done|].
    destruct p as [|x' p].
    + injection Hput as <-. simpl.
      rewrite assoc_upsert_ne; [done|].
      intros ->. apply Hpq. apply prefix_cons, prefix_nil.
    + destruct (assoc x es) as [c|] eqn:Hc; [|done].
      destruct (put (x' :: p) v c) as [c'|] eqn:Hc'; [|done].
      injection Hput as <-. simpl.
      destruct (decide (x = y)) as [->|Hne].
      * rewrite assoc_upsert_eq, Hc.
        apply (IH c c' q Hc').
        -- intros H. apply Hpq. by apply prefix_cons.
        -- intros H. apply Hqp. by apply prefix_cons.
      * by rewrite assoc_upsert_ne.
Qed.

(** Writing one entry of an existing directory succeeds, and gives the
    directory the updated listing. *)
Lemma put_child d x v fs m es :
  stat d fs = Some (Dir m es) →
  ∃ fs', put (d </> x) v fs = Ok fs'
         ∧ stat d fs' = Some (Dir m (upsert x v es)).
Proof.
  revert fs. induction d as [|y d IH]; intros fs Hd; simpl in Hd.
  - injection Hd as ->. eexists. split; [done|done].
  - destruct fs as [|m0 es0]; [done|].
    destruct (assoc y es0) as [c|] eqn:Hc; [|done].
    destruct (IH c Hd) as (c' & Hput & Hstat).
    exists (Dir m0 (upsert y c' es0)). split.
    + assert (∃ z zs, d ++ [x] = z :: zs) as (z & zs & E).
      { destruct d; simpl; eauto. }
      simpl. rewrite E, Hc, <- E. by rewrite Hput.
    + simpl. by rewrite assoc_upsert_eq.
Qed.

(** * Facts about frame names *)

Lemma string_length_app s t :
  String.length (s +:+ t) = (String.length s + String.length t)%nat.
Proof.
  induction s as [|a s IH]; cbv [String.append]; fold String.append;
    simpl; [done|].
  by rewrite IH.
Qed.

Lemma string_app_inj_r s1 s2 t : s1 +:+ t = s2 +:+ t → s1 = s2.
Proof.
  revert s2. induction s1 as [|a s1 IH]; intros [|b s2] H.
  - done.
  - apply (f_equal String.length) in H.
    rewrite !string_length_app in H. simpl in H. lia.
  - apply (f_equal String.length) in H.
    rewrite !string_length_app in H. simpl in H. lia.
  - cbv [String.append] in H. fold String.append in H.
    injection H as -> H. f_equal. by apply IH.
Qed.

Lemma read_decimal_zero s : read_decimal (String "0" s) = read_decimal s.
Proof.
  unfold read_decimal. simpl.
  by destruct (NilEmpty.uint_of_string s) as [d|].
Qed.

Lemma read_decimal_digits i :
  read_decimal (NilZero.string_of_uint (Nat.to_uint i)) = Some i.
Proof.
  unfold read_decimal.
  assert (NilEmpty.uint_of_string (NilZero.string_of_uint (Nat.to_uint i))
          = Some (Nat.to_uint i)) as ->.
  { destruct (Nat.to_uint i) as [|u|u|u|u|u|u|u|u|u|u] eqn:E;
      try exact (NilEmpty.usu _).
    pose proof (f_equal Nat.of_uint E) as E'.
    rewrite DecimalNat.Unsigned.of_to in E'. subst i. discriminate E. }
  simpl. f_equal. apply DecimalNat.Unsigned.of_to.
Qed.

Lemma read_decimal_format_03d i : read_decimal (format_03d i) = Some i.
Proof.
  unfold format_03d, zfill.
  generalize (read_decimal_digits i).
  generalize (NilZero.string_of_uint (Nat.to_uint i)). intros s Hs.
  assert (3 - String.length s ≤ 3)%nat as Hle by lia.
  destruct (3 - String.length s)%nat as [|[|[|[|n]]]]; [..|lia];
    cbv [repeat String.concat String.append]; fold String.append;
    by rewrite ?read_decimal_zero.
Qed.

Lemma frame_name_inj i j : frame_name i = frame_name j → i = j.
Proof.
  unfold frame_name. intros H.
  apply (inj (String.append "frame_")) in H.
  apply string_app_inj_r in H.
  apply (f_equal read_decimal) in H.
  rewrite !read_decimal_format_03d in H. by injection H.
Qed.


Lemma frame_name_not_manifest i : frame_name i ≠ "current_manifest.json".
Proof. unfold frame_name. cbv [String.append]. discriminate. Qed.
(** * Facts about staging *)

Lemma prefix_snoc_inv {A} (q d : list A) x :
  q `prefix_of` d ++ [x] → q `prefix_of` d ∨ q = d ++ [x].
Proof.
  intros [k Hk]. destruct k as [|y k _] using rev_ind.
  - right. by rewrite app_nil_r in Hk.
  - left. rewrite app_assoc in Hk. apply app_inj_tail in Hk as [-> _].
    by exists k.
Qed.

Lemma is_file_stat fs p :
  is_file fs p = true → ∃ m d, stat p fs = Some (File m d).
Proof.
  unfold is_file. destruct (stat p fs) as [[m d|]|]; try done. eauto.
Qed.

Lemma write_bytes_child t d x data fs m es :
  stat d fs = Some (Dir m es) →
  is_dir fs (d </> x) = false →
  ∃ fs', write_bytes t (d </> x) data fs = Ok fs'
         ∧ stat d fs' = Some (Dir m (upsert x (File t data) es))
         ∧ ∀ q, ¬ (d </> x) `prefix_of` q → ¬ q `prefix_of` (d </> x) →
                stat q fs' = stat q fs.
Proof.
  intros Hd Hx.
  destruct (put_child d x (File t data) fs m es Hd) as (fs' & Hput & Hs).
  exists fs'. unfold write_bytes. unfold is_dir in Hx.
  destruct (stat (d </> x) fs) as [[?|?]|];
    [| done |]; (split; [done|]); (split; [done|]);
    intros q ??; by apply (stat_put_unrelated _ _ _ _ _ Hput).
Qed.

(** The loop of [stage_from_latest_run] that copies and renames, started
    at any index: it runs to its end when the sources are regular files and
    no target name is taken by a directory; it writes the [k]-th source to
    the [k]-th frame name and touches nothing else. *)
Lemma stage_loop_spec (P : path) (l : string) (srcs : list string) :
  l ≠ "staging" →
  ∀ (start : nat) (w : world) ms ses,
    stat (P </> "staging") (root w) = Some (Dir ms ses) →
    (∀ name, name ∈ srcs → is_file (root w) (P </> l </> name) = true) →
    (∀ k, (k < length srcs)%nat →
          is_dir (root w) (P </> "staging" </> frame_name (start + k)) = false) →
    ∃ w' ses',
      for_each (enumerate_from start srcs) (fun '(i, frame) =>
        let* data := query (fun fs => read_bytes fs (P </> l </> frame)) in
        update (fun t =>
          write_bytes t (P </> "staging" </> frame_name i) data)) w
      = (Ok tt, w')
      ∧ now w' = now w ∧ out w' = out w
      ∧ stat (P </> "staging") (root w') = Some (Dir ms ses')
      ∧ (∀ k name, srcs !! k = Some name →
           ∃ d, read_bytes (root w) (P </> l </> name) = Ok d
                ∧ assoc (frame_name (start + k)) ses' = Some (File (now w) d))
      ∧ (∀ n, (∀ k, (k < length srcs)%nat → n ≠ frame_name (start + k)) →
              assoc n ses' = assoc n ses)
      ∧ (∀ q, ¬ (P </> "staging") `prefix_of` q →
              ¬ q `prefix_of` (P </> "staging") →
              stat q (root w') = stat q (root w)).
Proof.
  intros Hl. induction srcs as [|name srcs IH]; intros start w ms ses HS Hfiles Hfree.
  - exists w, ses. simpl. unfold ret. repeat split; done.
  - destruct (is_file_stat _ _ (Hfiles name (list_elem_of_here _ _)))
      as (m0 & d0 & Hsrc).
    pose proof (Hfree 0%nat ltac:(simpl; lia)) as Hfree0.
    rewrite Nat.add_0_r in Hfree0.
    destruct (write_bytes_child (now w) _ (frame_name start) d0 _ _ _ HS Hfree0)
      as (fs1 & Hwr & HS1 & Hfr1).
    set (w1 := World fs1 (now w) (out w)).
    assert (∀ q, ¬ (P </> "staging") `prefix_of` q →
                 ¬ q `prefix_of` (P </> "staging") →
                 stat q fs1 = stat q (root w)) as Hfr1'.
    { intros q H1 H2. apply Hfr1.
      - intros H. apply H1. by eapply prefix_app_l.
      - intros H. destruct (prefix_snoc_inv _ _ _ H) as [H'| ->].
        + by apply H2.
        + apply H1. by apply prefix_app_r. }
    assert (∀ n, stat (P </> l </> n) fs1 = stat (P </> l </> n) (root w))
      as Hrun.
    { intros n. apply Hfr1'; rewrite <- (app_assoc P); simpl.
      - apply (siblings_unrelated P "staging" l [] [n]). congruence.
      - apply (siblings_unrelated P l "staging" [n] []). done. }
    destruct (IH (S start) w1 ms (upsert (frame_name start) (File (now w) d0) ses))
      as (w' & ses' & Hrun' & Hnow & Hout & HS' & Hnew & Hold & Hfr).
    + done.
    + intros n Hn. unfold is_file. simpl. rewrite Hrun.
      apply (Hfiles n). by apply list_elem_of_further.
    + intros k Hk. unfold is_dir. simpl.
      rewrite (stat_child _ _ _ _ _ HS1).
      rewrite assoc_upsert_ne by (intros E; apply frame_name_inj in E; lia).
      rewrite <- (stat_child _ _ _ _ _ HS).
      specialize (Hfree (S k) ltac:(simpl; lia)).
      by rewrite Nat.add_succ_r in Hfree.
    + exists w', ses'. split; [|repeat split].
      * simpl. unfold bind at 1. unfold bind at 1. unfold query at 1.
        unfold read_bytes. rewrite Hsrc. unfold update at 1. rewrite Hwr.
        exact Hrun'.
      * done.
      * done.
      * done.
      * intros [|k] name' Hk; simpl in Hk.
        -- injection Hk as <-. exists d0. split.
           ++ unfold read_bytes. by rewrite Hsrc.
           ++ rewrite Nat.add_0_r. rewrite Hold.
              ** apply assoc_upsert_eq.
              ** intros k Hk E. apply frame_name_inj in E. lia.
        -- destruct (Hnew k name' Hk) as (d & Hd & Hf).
           exists d. split.
           ++ revert Hd. unfold read_bytes. simpl. by rewrite Hrun.
           ++ by rewrite Nat.add_succ_r.
      * intros n Hn. rewrite Hold.
        -- apply assoc_upsert_ne. intros E.
           apply (Hn 0%nat ltac:(simpl; lia)). by rewrite Nat.add_0_r.
        -- intros k Hk E. apply (Hn (S k) ltac:(simpl; lia)).
           by rewrite Nat.add_succ_r.
      * intros q H1 H2. rewrite (Hfr q H1 H2). simpl. by apply Hfr1'.
Qed.

(** * Facts about the selection of the latest run *)

(** [max] with a key that never raises returns the first element whose key
    is greatest: every element before it has a smaller key, and no element
    after it has a greater one. *)
Lemma max_from_first {A} (key : A → outcome Z) (f : A → Z) xs :
  (∀ x, x ∈ xs → key x = Ok (f x)) →
  ∀ best, ∃ r pre post,
    max_from key best (f best) xs = Ok r
    ∧ best :: xs = pre ++ r :: post
    ∧ (∀ y, y ∈ pre → (f y < f r)%Z)
    ∧ (∀ y, y ∈ post → (f y ≤ f r)%Z).
Proof.
  induction xs as [|x xs IH]; intros Hkey best.
  - exists best, [], []. repeat split; try done;
      intros y Hy; by apply elem_of_nil in Hy.
  - simpl. rewrite (Hkey x (list_elem_of_here _ _)).
    assert (∀ y, y ∈ xs → key y = Ok (f y)) as Hkey'.
    { intros y Hy. apply Hkey. by apply list_elem_of_further. }
    destruct (f best <? f x)%Z eqn:Hlt.
    + apply Z.ltb_lt in Hlt.
      destruct (IH Hkey' x) as (r & pre & post & Hr & Hsplit & Hpre & Hpost).
      exists r, (best :: pre), post. repeat split; try done.
      * simpl. by rewrite Hsplit.
      * intros y Hy. apply elem_of_cons in Hy as [->|Hy]; [|by apply Hpre].
        destruct pre as [|x' pre]; simpl in Hsplit.
        -- injection Hsplit as <- _. done.
        -- injection Hsplit as <- _.
           specialize (Hpre x (list_elem_of_here _ _)). lia.
    + apply Z.ltb_ge in Hlt.
      destruct (IH Hkey' best) as (r & pre & post & Hr & Hsplit & Hpre & Hpost).
      destruct pre as [|b pre]; simpl in Hsplit.
      * injection Hsplit as <- <-.
        exists best, [], (x :: xs). repeat split; try done.
        intros y Hy. apply elem_of_cons in Hy as [->|Hy]; [lia|].
        by apply Hpost.
      * injection Hsplit as <- ->.
        exists r, (best :: x :: pre), post. repeat split; try done.
        intros y Hy. apply elem_of_cons in Hy as [->|Hy].
        { apply Hpre. apply list_elem_of_here. }
        apply elem_of_cons in Hy as [->|Hy].
        { specialize (Hpre best (list_elem_of_here _ _)). lia. }
        apply Hpre. by apply list_elem_of_further.
Qed.

Lemma py_max_first {A} (key : A → outcome Z) (f : A → Z) xs :
  xs ≠ [] →
  (∀ x, x ∈ xs → key x = Ok (f x)) →
  ∃ r pre post,
    py_max xs key = Ok r
    ∧ xs = pre ++ r :: post
    ∧ (∀ y, y ∈ pre → (f y < f r)%Z)
    ∧ (∀ y, y ∈ post → (f y ≤ f r)%Z).
Proof.
  destruct xs as [|x xs]; [done|]. intros _ Hkey.
  unfold py_max. rewrite (Hkey x (list_elem_of_here _ _)).
  apply max_from_first. intros y Hy. apply Hkey. by apply list_elem_of_further.
Qed.

(** Where the first maximum stands depends on the keys alone. *)
Lemma first_max_position (ks : list Z) i j :
  (∃ ki, ks !! i = Some ki
         ∧ (∀ i' k, (i' < i)%nat → ks !! i' = Some k → (k < ki)%Z)
         ∧ (∀ i' k, ks !! i' = Some k → (k ≤ ki)%Z)) →
  (∃ kj, ks !! j = Some kj
         ∧ (∀ j' k, (j' < j)%nat → ks !! j' = Some k → (k < kj)%Z)
         ∧ (∀ j' k, ks !! j' = Some k → (k ≤ kj)%Z)) →
  i = j.
Proof.
  intros (ki & Hi & Hi1 & Hi2) (kj & Hj & Hj1 & Hj2).
  destruct (Nat.lt_trichotomy i j) as [H|[H|H]]; [|done|].
  - specialize (Hj1 i ki H Hi). specialize (Hi2 j kj Hj). lia.
  - specialize (Hi1 j kj H Hj). specialize (Hj2 i ki Hi). lia.
Qed.

Lemma all_runs_spec fs parent_dir children d :
  d ∈ all_runs fs parent_dir children ↔
  d ∈ children ∧ is_dir fs (parent_dir </> d) = true ∧ d ≠ "staging".
Proof.
  unfold all_runs. rewrite list_elem_of_filter.
  rewrite andb_True, negb_True, Is_true_true.
  split.
  - intros [[H1 H2] H3]. repeat split; try done.
    intros ->. apply H2. by rewrite String.eqb_refl.
  - intros (H1 & H2 & H3). repeat split; try done.
    intros H. apply Is_true_true, String.eqb_eq in H. done.
Qed.

Lemma st_mtime_dir fs p :
  is_dir fs p = true → ∃ m, st_mtime fs p = Ok m.
Proof.
  unfold is_dir, st_mtime. destruct (stat p fs) as [[?|m ?]|]; try done.
  by exists m.
Qed.

(** * Facts about the writing calls *)

Lemma mkdir_child t d x fs m es :
  stat d fs = Some (Dir m es) →
  is_file fs (d </> x) = false →
  ∃ fs' mx xs,
    mkdir_exist_ok t (d </> x) fs = Ok fs'
    ∧ stat (d </> x) fs' = Some (Dir mx xs)
    ∧ (∀ q, ¬ q `prefix_of` (d </> x) → stat q fs' = stat q fs).
Proof.
  intros Hd Hx. unfold mkdir_exist_ok, is_file in *.
  destruct (stat (d </> x) fs) as [[?|mx xs]|] eqn:Hs; [done| |].
  - by exists fs, mx, xs.
  - destruct (put_child d x (Dir t []) fs m es Hd) as (fs' & Hput & Hd').
    exists fs', t, []. split; [done|]. split.
    + rewrite (stat_child _ _ _ _ _ Hd'). apply assoc_upsert_eq.
    + intros q Hq. destruct (decide ((d </> x) `prefix_of` q)) as [[k ->]|Hn].
      * rewrite !(stat_app (d </> x) k), Hs.
        rewrite (stat_child _ _ _ _ _ Hd'), assoc_upsert_eq. simpl.
        destruct k as [|y k]; [|done].
        destruct Hq. by rewrite app_nil_r.
      * by apply (stat_put_unrelated _ _ _ _ _ Hput).
Qed.

(** A copy that succeeds puts a copy of the source file at the target, or
    inside the target when that is a directory. *)
Lemma copy2_Ok src dst fs fs' :
  copy2 src dst fs = Ok fs' →
  ∃ dst' m d,
    stat src fs = Some (File m d)
    ∧ (dst' = dst ∨ dst' = dst </> basename src)
    ∧ put dst' (File m d) fs = Ok fs'.
Proof.
  unfold copy2. intros H.
  set (dst' := if is_dir fs dst then dst </> basename src else dst) in *.
  assert (dst' = dst ∨ dst' = dst </> basename src) as Hdst.
  { unfold dst'. destruct (is_dir fs dst); auto. }
  destruct (decide (src = dst')).
  { by destruct (stat src fs). }
  destruct (stat src fs) as [[m d|]|]; try done.
  exists dst', m, d. split; [done|]. split; [done|].
  by destruct (stat dst' fs) as [[|]|].
Qed.

(** Writing below an existing directory puts a node at one of its names. *)
Lemma put_below d x rest v fs fs' m es :
  stat d fs = Some (Dir m es) →
  put (d ++ x :: rest) v fs = Ok fs' →
  ∃ c, stat d fs' = Some (Dir m (upsert x c es)).
Proof.
  revert fs fs'. induction d as [|y d IH]; intros fs fs' Hd Hput; simpl in Hd.
  - injection Hd as ->. simpl in Hput. destruct rest as [|z rest].
    + injection Hput as <-. by eexists.
    + destruct (assoc x es) as [c|]; [|done].
      destruct (put (z :: rest) v c) as [c'|]; [|done].
      injection Hput as <-. by eexists.
  - destruct fs as [|m0 es0]; [done|].
    destruct (assoc y es0) as [c|] eqn:Hc; [|done].
    assert (∃ z zs, d ++ x :: rest = z :: zs) as (z & zs & E).
    { destruct d; simpl; eauto. }
    simpl in Hput. rewrite E, Hc, <- E in Hput.
    destruct (put (d ++ x :: rest) v c) as [c1|] eqn:Hc1; [|done].
    injection Hput as <-. simpl. rewrite assoc_upsert_eq.
    by apply (IH c c1).
Qed.

Lemma names_of_put_below S x rest v fs fs' :
  put (S ++ x :: rest) v fs = Ok fs' → names_of fs S ⊆ names_of fs' S.
Proof.
  intros Hput. unfold names_of.
  destruct (stat S fs) as [[|m es]|] eqn:HS;
    [apply list_subseteq_nil| |apply list_subseteq_nil].
  destruct (put_below _ _ _ _ _ _ _ _ HS Hput) as [c ->].
  rewrite names_upsert. destruct (assoc x es); [done|].
  by apply list_subseteq_app_l.
Qed.

Lemma writes_under_ret {A} S (a : A) : writes_under S (ret a).
Proof. intros w r w' [= <- <-]. done. Qed.

Lemma writes_under_raise {A} S e : writes_under S (@raise A e).
Proof. intros w r w' [= <- <-]. done. Qed.

Lemma writes_under_print S e : writes_under S (print e).
Proof.
  intros w r w' [= <- <-]. split; [done|]. split; [|done].
  by apply prefix_app_r.
Qed.

Lemma writes_under_reads {A} S (f : node → A) : writes_under S (reads f).
Proof. intros w r w' [= <- <-]. done. Qed.

Lemma writes_under_query {A} S (f : node → outcome A) :
  writes_under S (query f).
Proof. intros w r w' [= <- <-]. done. Qed.

Lemma writes_under_bind {A B} S (c : M A) (k : A → M B) :
  writes_under S c → (∀ a, writes_under S (k a)) →
  writes_under S (bind c k).
Proof.
  intros Hc Hk w r w'. unfold bind.
  destruct (c w) as [[a|e] w1] eqn:E.
  - intros H. destruct (Hc _ _ _ E) as (Hn & Ho & Hf & Hs).
    destruct (Hk a _ _ _ H) as (Hn' & Ho' & Hf' & Hs'). split; [congruence|].
    split; [by etrans|]. split; [|by etrans].
    intros q H1 H2. rewrite Hf', Hf; done.
  - intros [= <- <-]. by apply (Hc _ _ _ E).
Qed.

Lemma writes_under_try {A} S (c : M A) (h : exn → M A) :
  writes_under S c → (∀ e, writes_under S (h e)) →
  writes_under S (try_except c h).
Proof.
  intros Hc Hh w r w'. unfold try_except.
  destruct (c w) as [[a|e] w1] eqn:E.
  - intros [= <- <-]. by apply (Hc _ _ _ E).
  - intros H. destruct (Hc _ _ _ E) as (Hn & Ho & Hf & Hs).
    destruct (Hh e _ _ _ H) as (Hn' & Ho' & Hf' & Hs'). split; [congruence|].
    split; [by etrans|]. split; [|by etrans].
    intros q H1 H2. rewrite Hf', Hf; done.
Qed.

Lemma writes_under_for_each {A} S (xs : list A) (body : A → M unit) :
  (∀ x, writes_under S (body x)) → writes_under S (for_each xs body).
Proof.
  intros Hb. induction xs as [|x xs IH]; simpl.
  - apply writes_under_ret.
  - apply writes_under_bind; [apply Hb|]. intros _. apply IH.
Qed.

Lemma put_under S p v fs fs' q :
  put p v fs = Ok fs' → S `prefix_of` p →
  ¬ S `prefix_of` q → ¬ q `prefix_of` S →
  stat q fs' = stat q fs.
Proof.
  intros Hput HS H1 H2. apply (stat_put_unrelated _ _ _ _ _ Hput).
  - intros H. apply H1. by etrans.
  - intros H. destruct (prefix_weak_total _ _ _ H HS); done.
Qed.

(** A write stays under [S] when it creates [S] itself or puts a node
    somewhere below it. *)
Lemma writes_under_update S (f : Z → node → outcome node) :
  (∀ t fs fs', f t fs = Ok fs' →
     fs' = fs
     ∨ ∃ p v, put p v fs = Ok fs'
              ∧ ((p = S ∧ stat S fs = None) ∨ ∃ x rest, p = S ++ x :: rest)) →
  writes_under S (update f).
Proof.
  intros Hf w r w'. unfold update.
  destruct (f (now w) (root w)) as [fs'|e] eqn:E.
  - intros [= <- <-]. split; [done|]. split; [done|]. simpl.
    destruct (Hf _ _ _ E) as [->|(p & v & Hput & Hp)]; [done|]. split.
    + intros q H1 H2. apply (put_under S p v); try done.
      destruct Hp as [[-> _]|(x & rest & ->)]; [done|]. by apply prefix_app_r.
    + destruct Hp as [[-> Hnone]|(x & rest & ->)].
      * unfold names_of at 1. rewrite Hnone. apply list_subseteq_nil.
      * by eapply names_of_put_below.
  - intros [= <- <-]. done.
Qed.

Lemma writes_under_write_bytes S x rest d :
  writes_under S (update (fun t => write_bytes t (S ++ x :: rest) d)).
Proof.
  apply writes_under_update. intros t fs fs' H. right.
  exists (S ++ x :: rest), (File t d). split; [|right; eauto].
  unfold write_bytes in H. by destruct (stat (S ++ x :: rest) fs) as [[|]|].
Qed.

Lemma writes_under_mkdir S :
  writes_under S (update (fun t => mkdir_exist_ok t S)).
Proof.
  apply writes_under_update. intros t fs fs' H.
  unfold mkdir_exist_ok in H. destruct (stat S fs) as [[|]|] eqn:E; try done.
  - left. by injection H.
  - right. exists S, (Dir t []). split; [done|]. by left.
Qed.

Lemma writes_under_copy2 S src x rest :
  writes_under S (update (fun _ => copy2 src (S ++ x :: rest))).
Proof.
  apply writes_under_update. intros t fs fs' H. right.
  destruct (copy2_Ok _ _ _ _ H) as (dst' & m & d & _ & [->| ->] & Hput).
  - exists (S ++ x :: rest), (File m d). split; [done|]. right. eauto.
  - exists ((S ++ x :: rest) </> basename src), (File m d). split; [done|].
    right. exists x, (rest </> basename src). by rewrite <- app_assoc.
Qed.

(** * Stepping through the monad *)

Lemma bind_Ok {A B} (c : M A) (k : A → M B) w a w' :
  c w = (Ok a, w') → bind c k w = k a w'.
Proof. unfold bind. by intros ->. Qed.

Lemma bind_Raise {A B} (c : M A) (k : A → M B) w e w' :
  c w = (Raise e, w') → bind c k w = (Raise e, w').
Proof. unfold bind. by intros ->. Qed.

Lemma bind_reads {A B} (f : node → A) (k : A → M B) w :
  bind (reads f) k w = k (f (root w)) w.
Proof. done. Qed.

Lemma bind_query_Ok {A B} (f : node → outcome A) (k : A → M B) w a :
  f (root w) = Ok a → bind (query f) k w = k a w.
Proof. unfold bind, query. by intros ->. Qed.

Lemma bind_query_Raise {A B} (f : node → outcome A) (k : A → M B) w e :
  f (root w) = Raise e → bind (query f) k w = (Raise e, w).
Proof. unfold bind, query. by intros ->. Qed.

Lemma bind_print {B} e (k : unit → M B) w :
  bind (print e) k w = k tt (World (root w) (now w) (out w ++ [e])).
Proof. done. Qed.

Lemma bind_update_Ok {B} f (k : unit → M B) w fs' :
  f (now w) (root w) = Ok fs' →
  bind (update f) k w = k tt (World fs' (now w) (out w)).
Proof. unfold bind, update. by intros ->. Qed.

Lemma bind_update_Raise {B} f (k : unit → M B) w e :
  f (now w) (root w) = Raise e → bind (update f) k w = (Raise e, w).
Proof. unfold bind, update. by intros ->. Qed.

(** * Staging *)

Lemma py_max_nonempty {A} (xs : list A) key r : py_max xs key = Ok r → xs ≠ [].
Proof. by destruct xs. Qed.

Lemma py_max_elem {A} (xs : list A) key r : py_max xs key = Ok r → r ∈ xs.
Proof.
  destruct xs as [|x xs]; [done|]. simpl.
  destruct (key x) as [k|]; [|done].
  revert x k. induction xs as [|y xs IH]; intros b kb; simpl.
  - intros [= ->]. apply list_elem_of_here.
  - destruct (key y) as [ky|]; [|done].
    destruct (kb <? ky)%Z; intros H.
    + apply IH in H. 
      apply elem_of_cons in H as [->|H].
      * apply list_elem_of_further, list_elem_of_here.
      * by do 2 apply list_elem_of_further.
    + apply IH in H.
      apply elem_of_cons in H as [->|H].
      * apply list_elem_of_here.
      * by do 2 apply list_elem_of_further.
Qed.


Lemma glob_stat_eq fs fs' dir pre suf :
  stat dir fs' = stat dir fs → glob fs' dir pre suf = glob fs dir pre suf.
Proof. unfold glob, names_of. by intros ->. Qed.

Lemma run_outside_staging (P : path) l r :
  l ≠ "staging" →
  ¬ (P </> "staging") `prefix_of` (P </> l ++ r)
  ∧ ¬ (P </> l ++ r) `prefix_of` (P </> "staging").
Proof.
  intros Hl. rewrite <- (app_assoc P). simpl. split.
  - apply (siblings_unrelated P "staging" l [] r). congruence.
  - apply (siblings_unrelated P l "staging" r []). done.
Qed.



Lemma writes_under_stage_frames L S srcs :
  writes_under S (stage_frames L S srcs).
Proof.
  unfold stage_frames. apply writes_under_for_each. intros [i frame].
  apply writes_under_bind; [apply writes_under_query|]. intros data.
  apply (writes_under_write_bytes S (frame_name i) []).
Qed.

Ltac writes_under_step :=
  first
    [ apply writes_under_ret
    | apply writes_under_print
    | apply writes_under_reads
    | apply writes_under_query
    | apply writes_under_stage_frames
    | apply writes_under_mkdir
    | apply (writes_under_copy2 _ _ _ [])
    | apply writes_under_bind; [|intros ?]
    | match goal with
      | |- writes_under _ (match ?x with _ => _ end) => destruct x
      end ].

(** Staging writes nowhere but under the [staging] folder of the parent
    directory, however it ends. *)
Lemma writes_under_stage P :
  writes_under (P </> "staging") (stage_from_latest_run P).
Proof. unfold stage_from_latest_run. repeat writes_under_step. Qed.

Lemma split_first_max {A} (f : A → Z) pre r post :
  (∀ y, y ∈ pre → (f y < f r)%Z) →
  (∀ y, y ∈ post → (f y ≤ f r)%Z) →
  ∃ kr, map f (pre ++ r :: post) !! length pre = Some kr
        ∧ (∀ i k, (i < length pre)%nat →
                  map f (pre ++ r :: post) !! i = Some k → (k < kr)%Z)
        ∧ (∀ i k, map f (pre ++ r :: post) !! i = Some k → (k ≤ kr)%Z).
Proof.
  intros Hpre Hpost. exists (f r). split; [|split].
  - change (map f (pre ++ r :: post)) with (f <$> (pre ++ r :: post)). by rewrite list_lookup_fmap, list_lookup_middle.
  - intros i k Hi. change (map f (pre ++ r :: post)) with (f <$> (pre ++ r :: post)).
    rewrite list_lookup_fmap, lookup_app_l by done.
    destruct (pre !! i) as [y|] eqn:Hy; [|done].
    intros [= <-]. apply Hpre. by eapply list_elem_of_lookup_2.
  - intros i k. change (map f (pre ++ r :: post)) with (f <$> (pre ++ r :: post)). rewrite list_lookup_fmap.
    destruct ((pre ++ r :: post) !! i) as [y|] eqn:Hy; [|done].
    intros [= <-]. apply list_elem_of_lookup_2 in Hy.
    apply elem_of_app in Hy as [Hy|Hy].
    + specialize (Hpre y Hy). lia.
    + apply elem_of_cons in Hy as [->|Hy]; [lia|]. by apply Hpost.
Qed.

(** C2.  [stage_from_latest_run] considers exactly the entries of the parent
    directory that are directories and are not named [staging].  When there
    is none it prints the no-runs line and returns [None], writing nothing
    and raising nothing.  Otherwise it takes the run folder whose
    modification time is greatest, the first such in listing order: every
    run before it is strictly older and none after it is newer.  The names
    play no part: any list of runs with the same modification times, under
    whatever names, has its latest run at the same position.  The folder
    taken is the one the function goes on with: its name is what the next
    line printed reports. *)
Theorem stage_selects_latest_by_mtime (P : path) (w : world) m es :
  stat P (root w) = Some (Dir m es) →
  let runs := all_runs (root w) P (map fst es) in
  let age := fun d => mtime_of (root w) (P </> d) in
  (∀ d, d ∈ runs ↔
        d ∈ map fst es ∧ is_dir (root w) (P </> d) = true ∧ d ≠ "staging")
  ∧ (runs = [] →
     stage_from_latest_run P w
     = (Ok None, World (root w) (now w) (out w ++ [ENoRuns P])))
  ∧ (runs ≠ [] →
     ∃ latest pre post,
       py_max runs (fun d => st_mtime (root w) (P </> d)) = Ok latest
       ∧ runs = pre ++ latest :: post
       ∧ (∀ d, d ∈ pre → (age d < age latest)%Z)
       ∧ (∀ d, d ∈ post → (age d ≤ age latest)%Z)
       ∧ (∀ (runs2 : list string) (age2 : string → Z) key2,
            map age2 runs2 = map age runs →
            (∀ d, d ∈ runs2 → key2 d = Ok (age2 d)) →
            ∃ latest2, py_max runs2 key2 = Ok latest2
                       ∧ runs2 !! length pre = Some latest2)
       ∧ ∃ r w', stage_from_latest_run P w = (r, w')
                 ∧ (out w ++ [ELatestSource latest]) `prefix_of` out w').
Proof.
  intros HP runs age. split; [|split].
  - intros d. apply all_runs_spec.
  - intros Hruns. unfold stage_from_latest_run.
    rewrite (bind_query_Ok _ _ w (map fst es)) by (unfold iterdir; by rewrite HP).
    rewrite bind_reads. fold runs. by rewrite Hruns.
  - intros Hruns.
    destruct (py_max_first (fun d => st_mtime (root w) (P </> d)) age runs Hruns)
      as (latest & pre & post & Hmax & Hsplit & Hpre & Hpost).
    { intros d Hd. apply all_runs_spec in Hd as (_ & Hd & _).
      unfold age, mtime_of. by destruct (st_mtime_dir _ _ Hd) as [md ->]. }
    exists latest, pre, post.
    split; [done|]. split; [done|]. split; [done|]. split; [done|]. split.
    { intros runs2 age2 key2 Hages Hkey2.
      assert (runs2 ≠ []) as Hne2.
      { intros ->. by destruct runs. }
      destruct (py_max_first key2 age2 runs2 Hne2 Hkey2)
        as (latest2 & pre2 & post2 & Hmax2 & Hsplit2 & Hpre2 & Hpost2).
      exists latest2. split; [done|].
      assert (length pre = length pre2) as ->.
      { apply (first_max_position (map age runs)).
        - rewrite Hsplit. by apply split_first_max.
        - rewrite <- Hages, Hsplit2. by apply split_first_max. }
      rewrite Hsplit2. apply list_lookup_middle. done. }
    unfold stage_from_latest_run.
    rewrite (bind_query_Ok _ _ w (map fst es)) by (unfold iterdir; by rewrite HP).
    rewrite bind_reads. fold runs.
    destruct runs as [|r0 rs] eqn:E; [done|].
    rewrite (bind_query_Ok _ _ w latest) by exact Hmax.
    cbv zeta. rewrite bind_print.
    match goal with |- ∃ r w', ?c ?w0 = _ ∧ _ =>
      assert (writes_under (P </> "staging") c) as Hc
        by repeat writes_under_step;
      destruct (c w0) as [r w'] eqn:Hrun
    end.
    exists r, w'. split; [done|]. by apply Hc in Hrun as (_ & Ho & _).
Qed.

Lemma stage_selects_latest_by_mtime_witness :
  ∃ latest,
    py_max (all_runs sample_root ["out"; "deska"] (map fst sample_runs))
      (fun d => st_mtime sample_root (["out"; "deska"] </> d)) = Ok latest
    ∧ ∃ r w', stage_from_latest_run ["out"; "deska"] sample_world = (r, w')
              ∧ [ELatestSource latest] `prefix_of` out w'.
Proof.
  destruct (stage_selects_latest_by_mtime ["out"; "deska"] sample_world
              0 sample_runs eq_refl) as (_ & _ & H).
  destruct H as (latest & pre & post & Hmax & _ & _ & _ & _ & Hrun).
  { vm_compute. discriminate. }
  exists latest. split; [exact Hmax | exact Hrun].
Defined.

(** * The orchestrator *)

Lemma under_prefix p q : under p q = true ↔ p `prefix_of` q.
Proof.
  revert q. induction p as [|x p IH]; intros q; simpl.
  - split; [intros _; apply prefix_nil|done].
  - destruct q as [|y q].
    + split; [done|]. intros H. by apply prefix_nil_not in H.
    + rewrite andb_true_iff, String.eqb_eq, IH. split.
      * intros [-> H]. by apply prefix_cons.
      * intros H. split; [by eapply prefix_cons_inv_1|by eapply prefix_cons_inv_2].
Qed.

Lemma apart_prefix p q :
  apart p q = true → ¬ p `prefix_of` q ∧ ¬ q `prefix_of` p.
Proof.
  unfold apart. rewrite andb_true_iff, !negb_true_iff.
  intros [H1 H2]. split; intros H%under_prefix; congruence.
Qed.

Section OrchestratorFacts.

Variable view : Type.
Variable build_view_key : view -> string.
Variable canonicalize : string -> string.
Variable OUTPUT_BASE_DIR : path.

Local Abbreviation scan_children := (scan_children canonicalize).
Local Abbreviation legacy_match := (legacy_match canonicalize).
Local Abbreviation record_key := (record_key canonicalize).
Local Abbreviation last_filed := (last_filed canonicalize).
Local Abbreviation find_parent_dir_for_key :=
  (find_parent_dir_for_key canonicalize).
Local Abbreviation deploy_latest_frames :=
  (deploy_latest_frames view build_view_key canonicalize OUTPUT_BASE_DIR).
Local Abbreviation build_projects := (build_projects canonicalize).
Local Abbreviation deploy_view :=
  (deploy_view view build_view_key canonicalize OUTPUT_BASE_DIR).
Local Abbreviation main :=
  (main view build_view_key canonicalize OUTPUT_BASE_DIR).

Lemma scan_children_Some fs output_root key children p :
  scan_children fs output_root key children = Some p ↔
  ∃ pre child post,
    children = pre ++ child :: post
    ∧ p = output_root </> child
    ∧ legacy_match fs output_root key child
    ∧ ∀ c, c ∈ pre → ¬ legacy_match fs output_root key c.
Proof.
  unfold legacy_match. induction children as [|c cs IH]; simpl.
  - split; [done|]. intros (pre & child & post & H & _). by destruct pre.
  - destruct (is_dir fs (output_root </> c)) eqn:Hd; simpl.
    + destruct (String.eqb (canonicalize c) key) eqn:Hk.
      * apply String.eqb_eq in Hk. split.
        -- intros [= <-]. exists [], c, cs. repeat split; try done.
           intros c' Hc'. by apply elem_of_nil in Hc'.
        -- intros (pre & child & post & H & -> & Hm & Hpre).
           destruct pre as [|c' pre]; simpl in H.
           ++ by injection H as <- _.
           ++ injection H as <- _. destruct (Hpre c); [apply list_elem_of_here|done].
      * apply String.eqb_neq in Hk. rewrite IH. split.
        -- intros (pre & child & post & -> & -> & Hm & Hpre).
           exists (c :: pre), child, post. repeat split; try tauto.
           intros c' Hc'. apply elem_of_cons in Hc' as [->|Hc']; [tauto|].
           by apply Hpre.
        -- intros (pre & child & post & H & -> & Hm & Hpre).
           destruct pre as [|c' pre]; simpl in H.
           ++ injection H as <- _. tauto.
           ++ injection H as <- ->. exists pre, child, post.
              repeat split; try tauto.
              intros c' Hc'. apply Hpre. by apply list_elem_of_further.
    + rewrite IH. split.
      * intros (pre & child & post & -> & -> & Hm & Hpre).
        exists (c :: pre), child, post. repeat split; try tauto.
        intros c' Hc'. apply elem_of_cons in Hc' as [->|Hc']; [|by apply Hpre].
        rewrite Hd. by intros [? _].
      * intros (pre & child & post & H & -> & Hm & Hpre).
        destruct pre as [|c' pre]; simpl in H.
        -- injection H as <- _. destruct Hm as [Hm _]. congruence.
        -- injection H as <- ->. exists pre, child, post.
           repeat split; try tauto.
           intros c' Hc'. apply Hpre. by apply list_elem_of_further.
Qed.


(** The resolver reads the filesystem and nothing else, and changes
    nothing. *)
Lemma find_parent_dir_reads_only output_root key w r w' :
  find_parent_dir_for_key output_root key w = (r, w') →
  w' = w
  ∧ ∀ w2, root w2 = root w →
          find_parent_dir_for_key output_root key w2 = (r, w2).
Proof.
  unfold find_parent_dir_for_key. cbv zeta.
  rewrite bind_reads.
  destruct (is_dir_joined (root w) output_root key) eqn:Hd.
  - intros [= <- <-]. split; [done|]. intros w2 Hw.
    by rewrite bind_reads, Hw, Hd.
  - destruct (iterdir (root w) output_root) as [children|e] eqn:Hi.
    + rewrite (bind_query_Ok _ _ _ _ Hi). intros [= <- <-]. split; [done|].
      intros w2 Hw. rewrite bind_reads, Hw, Hd.
      rewrite (bind_query_Ok _ _ w2 children) by (by rewrite Hw).
      unfold reads. by rewrite Hw.
    + rewrite (bind_query_Raise _ _ _ _ Hi). intros [= <- <-]. split; [done|].
      intros w2 Hw. rewrite bind_reads, Hw, Hd.
      by rewrite (bind_query_Raise _ _ w2 e) by (by rewrite Hw).
Qed.



Lemma build_projects_lookup rs :
  Forall (fun r => is_Some (project_path r)) rs →
  ∀ acc, ∃ m,
    build_projects rs acc = Ok m
    ∧ ∀ k, m !! k = match last_filed k rs with
                    | Some p => Some p
                    | None => acc !! k
                    end.
Proof.
  induction 1 as [|r rs [p Hp] _ IH]; intros acc.
  - by exists acc.
  - simpl. rewrite Hp. fold (record_key r).
    destruct (IH (<[record_key r := p]> acc)) as (m & Hm & Hlook).
    exists m. split; [done|]. intros k. rewrite Hlook.
    destruct (last_filed k rs); [done|].
    destruct (decide (record_key r = k)) as [<-|Hne].
    + by rewrite lookup_insert_eq.
    + by rewrite lookup_insert_ne.
Qed.

Lemma last_filed_None k rs :
  (∀ r, r ∈ rs → record_key r ≠ k) → last_filed k rs = None.
Proof.
  induction rs as [|r rs IH]; intros H; simpl; [done|].
  rewrite IH by (intros r' Hr'; apply H; by apply list_elem_of_further).
  destruct (decide (record_key r = k)); [|done].
  destruct (H r); [apply list_elem_of_here|done].
Qed.

Lemma last_filed_last pre r post p :
  project_path r = Some p →
  (∀ r', r' ∈ post → record_key r' ≠ record_key r) →
  last_filed (record_key r) (pre ++ r :: post) = Some p.
Proof.
  intros Hp Hpost. induction pre as [|r0 pre IH]; simpl.
  - rewrite (last_filed_None _ _ Hpost). by rewrite decide_True.
  - by rewrite IH.
Qed.

Lemma last_filed_Some k rs :
  is_Some (last_filed k rs) → ∃ r, r ∈ rs ∧ record_key r = k.
Proof.
  induction rs as [|r rs IH]; simpl; [by intros [? ?]|].
  destruct (last_filed k rs) as [q|].
  - intros _. destruct IH as (r' & Hr' & Hk); [by eexists|].
    exists r'. split; [by apply list_elem_of_further|done].
  - destruct (decide (record_key r = k)); [|done].
    intros _. exists r. split; [apply list_elem_of_here|done].
Qed.

Lemma last_filed_is_Some k rs :
  Forall (fun r => is_Some (project_path r)) rs →
  (∃ r, r ∈ rs ∧ record_key r = k) → is_Some (last_filed k rs).
Proof.
  induction 1 as [|r rs [p Hp] _ IH]; intros (r' & Hr' & Hk).
  - by apply elem_of_nil in Hr'.
  - simpl. destruct (last_filed k rs) as [q|] eqn:E; [by eexists|].
    apply elem_of_cons in Hr' as [->|Hr'].
    + rewrite decide_True by done. by eexists.
    + destruct IH as [? ?]; [by exists r'|done].
Qed.

(** C5.  Built from records that all carry a project path, the project map
    has exactly the canonicalized base names of the records as its keys,
    and under each key the path of the last record, in input order, with
    that key: a record's path is the entry of its key when no later record
    has the same key.  Two records with one key leave one entry, the path
    of the second. *)
Theorem project_map_last_wins (projs_raw : list project_record) :
  Forall (fun r => is_Some (project_path r)) projs_raw →
  ∃ projects,
    build_projects projs_raw ∅ = Ok projects
    ∧ (∀ k, is_Some (projects !! k) ↔
            ∃ r, r ∈ projs_raw
                 ∧ canonicalize (default "" (view_name_base r)) = k)
    ∧ (∀ pre r post p,
         projs_raw = pre ++ r :: post →
         project_path r = Some p →
         (∀ r', r' ∈ post →
            canonicalize (default "" (view_name_base r'))
            ≠ canonicalize (default "" (view_name_base r))) →
         projects !! canonicalize (default "" (view_name_base r)) = Some p)
    ∧ (∀ r1 r2 p1 p2,
         projs_raw = [r1; r2] →
         project_path r1 = Some p1 → project_path r2 = Some p2 →
         canonicalize (default "" (view_name_base r1))
         = canonicalize (default "" (view_name_base r2)) →
         projects = {[ canonicalize (default "" (view_name_base r2)) := p2 ]}).
Proof.
  intros Hall.
  destruct (build_projects_lookup projs_raw Hall ∅) as (m & Hm & Hlook).
  exists m. split; [done|]. split; [|split].
  - intros k. rewrite Hlook, lookup_empty. split.
    + intros [p Hp]. apply last_filed_Some.
      destruct (last_filed k projs_raw) as [q|] eqn:E; [by eexists|done].
    + intros H. destruct (last_filed_is_Some k projs_raw Hall H) as [p ->].
      by eexists.
  - intros pre r post p -> Hp Hpost. rewrite Hlook.
    fold (record_key r). by rewrite (last_filed_last pre r post p Hp Hpost).
  - intros r1 r2 p1 p2 -> Hp1 Hp2 Hk. simpl in Hm.
    rewrite Hp1, Hp2, Hk in Hm. injection Hm as <-.
    by rewrite insert_insert_eq.
Qed.


(** Staging returns no other path than the staging folder. *)
Lemma stage_returns_staging P w S w' :
  stage_from_latest_run P w = (Ok (Some S), w') → S = P </> "staging".
Proof.
  unfold stage_from_latest_run, bind, query, reads, print, ret, update.
  cbv zeta. intros H. repeat case_match; by simplify_eq.
Qed.

Lemma apart_extends (S p : path) r :
  ¬ S `prefix_of` p → ¬ p `prefix_of` S →
  ¬ S `prefix_of` (p ++ r) ∧ ¬ (p ++ r) `prefix_of` S.
Proof.
  intros H1 H2. split.
  - intros H. destruct (prefix_weak_total S p (p ++ r)); try done.
    by apply prefix_app_r.
  - intros H. apply H2. by eapply prefix_app_l.
Qed.

(** C8.  With the stage-only flag set, a deployment whose staging succeeds
    ends successfully right after it: it prints that the copy is skipped,
    and the filesystem is the one staging left, so nothing is copied to the
    project and no count of deployed frames is printed.  Whether the project
    has a [materials] folder plays no part.  Everything outside the staging
    folder is as it was before the call, the project folder with its
    [materials] and [current_manifest.json] included. *)
Theorem stage_only_copies_nothing (v : view) (project : path) (w : world)
  (P S : path) (w1 : world) :
  let key := build_view_key v in
  let w0 := World (root w) (now w) (out w ++ [EDeploying key]) in
  find_parent_dir_for_key OUTPUT_BASE_DIR key w0 = (Ok (Some P), w0) →
  stage_from_latest_run P w0 = (Ok (Some S), w1) →
  ∃ w2,
    deploy_latest_frames true v project w = (Ok tt, w2)
    ∧ root w2 = root w1
    ∧ out w2 = out w1 ++ [EStageOnly; ECleanupSkipped]
    ∧ S = P </> "staging"
    ∧ (∀ q, ¬ S `prefix_of` q → ¬ q `prefix_of` S →
            stat q (root w2) = stat q (root w))
    ∧ (¬ S `prefix_of` project → ¬ project `prefix_of` S →
       ∀ r, stat (project ++ r) (root w2) = stat (project ++ r) (root w)).
Proof.
  intros key w0 Hfind Hstage.
  pose proof (stage_returns_staging _ _ _ _ Hstage) as ->.
  destruct (writes_under_stage P _ _ _ Hstage) as (_ & _ & Hframe & _).
  eexists. split.
  { unfold deploy_latest_frames. cbv zeta. rewrite bind_print.
    fold key. fold w0. rewrite (bind_Ok _ _ _ _ _ Hfind).
    rewrite (bind_Ok _ _ _ _ _ Hstage). rewrite bind_print.
    unfold print. cbn [root now out]. rewrite <- app_assoc. reflexivity. }
  cbn [root now out]. repeat split; try done.
  intros H1 H2 r. destruct (apart_extends _ _ r H1 H2). by apply Hframe.
Qed.


Lemma basename_child (d : path) x : basename (d </> x) = x.
Proof. unfold basename. apply last_last. Qed.

(** Copying one staged frame into the materials folder. *)
Lemma copy2_into_dir S Mt f fs mm mes m d :
  ¬ S `prefix_of` Mt → ¬ Mt `prefix_of` S →
  stat Mt fs = Some (Dir mm mes) →
  stat (S </> f) fs = Some (File m d) →
  is_dir fs (Mt </> f) = false →
  ∃ fs', copy2 (S </> f) Mt fs = Ok fs'
         ∧ stat Mt fs' = Some (Dir mm (upsert f (File m d) mes))
         ∧ ∀ q, ¬ Mt `prefix_of` q → ¬ q `prefix_of` Mt →
                stat q fs' = stat q fs.
Proof.
  intros H1 H2 HMt Hsrc Hdst.
  destruct (put_child Mt f (File m d) fs mm mes HMt) as (fs' & Hput & HMt').
  exists fs'. split; [|split; [done|]].
  - unfold copy2, is_dir. rewrite HMt, basename_child.
    rewrite decide_False.
    + rewrite Hsrc. unfold is_dir in Hdst.
      by destruct (stat (Mt </> f) fs) as [[|]|].
    + intros E. apply app_inj_tail in E as [-> _]. by apply H1.
  - intros q Hq1 Hq2. apply (put_under Mt _ _ _ _ _ Hput); try done.
    by apply prefix_app_r.
Qed.

(** The copy loop of the deployer, started with any count: when the frames
    are regular files of the staging folder, the materials folder is a
    directory apart from it and none of the names is taken there by a
    directory, the loop runs to its end, counts every frame and leaves a
    copy of each in the materials folder. *)
Lemma copy_frames_spec (S Mt : path) :
  ¬ S `prefix_of` Mt → ¬ Mt `prefix_of` S →
  ∀ (frames : list string) (copied : nat) (w : world) mm mes,
    stat Mt (root w) = Some (Dir mm mes) →
    (∀ f, f ∈ frames → is_file (root w) (S </> f) = true) →
    (∀ f, f ∈ frames → is_dir (root w) (Mt </> f) = false) →
    ∃ w' mes',
      copy_frames S Mt frames copied w = (Ok (copied + length frames)%nat, w')
      ∧ now w' = now w ∧ out w' = out w
      ∧ stat Mt (root w') = Some (Dir mm mes')
      ∧ (∀ f, f ∈ frames → assoc f mes' = stat (S </> f) (root w))
      ∧ (∀ n, n ∉ frames → assoc n mes' = assoc n mes)
      ∧ (∀ q, ¬ Mt `prefix_of` q → ¬ q `prefix_of` Mt →
              stat q (root w') = stat q (root w)).
Proof.
  intros H1 H2. induction frames as [|f frames IH];
    intros copied w mm mes HMt Hfiles Hfree.
  - exists w, mes. simpl. unfold ret. rewrite Nat.add_0_r.
    repeat split; try done. intros f Hf. by apply elem_of_nil in Hf.
  - destruct (is_file_stat _ _ (Hfiles f (list_elem_of_here _ _)))
      as (m & d & Hsrc).
    destruct (copy2_into_dir S Mt f (root w) mm mes m d H1 H2 HMt Hsrc
                (Hfree f (list_elem_of_here _ _)))
      as (fs1 & Hcopy & HMt1 & Hfr1).
    assert (∀ g, stat (S </> g) fs1 = stat (S </> g) (root w)) as Hsame.
    { intros g. destruct (apart_extends Mt S [g]); try done. by apply Hfr1. }
    destruct (IH (Datatypes.S copied) (World fs1 (now w) (out w)) mm
                (upsert f (File m d) mes))
      as (w' & mes' & Hrun & Hnow & Hout & HMt' & Hnew & Hold & Hfr).
    + done.
    + intros g Hg. unfold is_file. cbn [root]. rewrite Hsame.
      apply (Hfiles g). by apply list_elem_of_further.
    + intros g Hg. unfold is_dir. cbn [root].
      rewrite (stat_child _ _ _ _ _ HMt1).
      destruct (decide (f = g)) as [<-|Hne].
      * by rewrite assoc_upsert_eq.
      * rewrite assoc_upsert_ne by done.
        rewrite <- (stat_child _ _ _ _ _ HMt).
        apply (Hfree g). by apply list_elem_of_further.
    + exists w', mes'. split; [|repeat split; try done].
      * simpl. rewrite (bind_update_Ok _ _ _ fs1) by exact Hcopy.
        rewrite Hrun. do 2 f_equal. lia.
      * intros g Hg. destruct (decide (g ∈ frames)) as [Hin|Hnin].
        -- rewrite (Hnew g Hin). cbn [root]. apply Hsame.
        -- apply elem_of_cons in Hg as [->|Hg]; [|done].
           rewrite (Hold f Hnin), assoc_upsert_eq. by rewrite Hsrc.
      * intros n Hn. rewrite Hold.
        -- apply assoc_upsert_ne. intros ->. apply Hn, list_elem_of_here.
        -- intros Hin. apply Hn. by apply list_elem_of_further.
      * intros q Hq1 Hq2. rewrite (Hfr q Hq1 Hq2). cbn [root].
        by apply Hfr1.
Qed.

(** The manifest copy that ends a deployment never raises: it writes the
    manifest and says so, or prints a warning with the exception, or finds
    no manifest and does nothing. *)
Lemma copy_manifest_to_project_spec (S project : path) (w : world) :
  ∃ w',
    copy_manifest_to_project S project w = (Ok tt, w')
    ∧ now w' = now w
    ∧ ((exists_ (root w) (S </> "current_manifest.json") = false ∧ w' = w)
       ∨ (∃ e, copy2 (S </> "current_manifest.json")
                 (project </> "current_manifest.json") (root w) = Raise e
               ∧ w' = World (root w) (now w) (out w ++ [EManifestWarning e]))
       ∨ (∃ fs', copy2 (S </> "current_manifest.json")
                   (project </> "current_manifest.json") (root w) = Ok fs'
                 ∧ w' = World fs' (now w) (out w ++ [EManifestWritten]))).
Proof.
  unfold copy_manifest_to_project, try_except. cbv zeta.
  rewrite bind_reads.
  destruct (exists_ (root w) (S </> "current_manifest.json")) eqn:Hex.
  - destruct (copy2 (S </> "current_manifest.json")
                (project </> "current_manifest.json") (root w))
      as [fs'|e] eqn:Hcopy.
    + rewrite (bind_update_Ok _ _ _ fs') by exact Hcopy.
      eexists. split; [reflexivity|]. split; [done|].
      right. right. by exists fs'.
    + rewrite (bind_update_Raise _ _ _ e) by exact Hcopy.
      eexists. split; [reflexivity|]. split; [done|].
      right. left. by exists e.
  - eexists. split; [reflexivity|]. split; [done|]. by left.
Qed.


Lemma glob_sorted_elem fs dir pre suf f :
  f ∈ sorted (glob fs dir pre suf) ↔ f ∈ glob fs dir pre suf.
Proof. unfold sorted. by rewrite merge_sort_Permutation. Qed.

Lemma materials_apart_from_manifest (project : path) f r :
  ¬ (project </> "current_manifest.json" ++ r)
      `prefix_of` (project </> "materials" </> f)
  ∧ ¬ (project </> "materials" </> f)
        `prefix_of` (project </> "current_manifest.json" ++ r).
Proof.
  rewrite <- !(app_assoc project). simpl. split.
  - by apply (siblings_unrelated project _ _ r [f]).
  - by apply (siblings_unrelated project _ _ [f] r).
Qed.

(** C9.  With the stage-only flag unset, staging done, a [materials] folder
    apart from the staging folder, and the names matching [frame_*.png] in the
    staging folder all regular files not barred by a directory in
    [materials]: the deployment succeeds, the count it prints is the number
    of names matching [frame_*.png] that the staging folder holds after
    staging, and each of them has its copy in [materials].  Staging removes
    nothing: a frame file that was in the staging folder before the call is
    still among them, and so is deployed, whether or not the latest run has
    a frame for its index. *)
Theorem deploy_copies_every_staged_frame (v : view) (project : path)
  (w : world) (P S : path) (w1 : world) :
  let key := build_view_key v in
  let w0 := World (root w) (now w) (out w ++ [EDeploying key]) in
  let materials := project </> "materials" in
  let staged := glob (root w1) S "frame_" ".png" in
  find_parent_dir_for_key OUTPUT_BASE_DIR key w0 = (Ok (Some P), w0) →
  stage_from_latest_run P w0 = (Ok (Some S), w1) →
  is_dir (root w1) materials = true →
  apart S materials = true →
  forallb (fun f => is_file (root w1) (S </> f)) staged = true →
  forallb (fun f => negb (is_dir (root w1) (materials </> f))) staged = true →
  ∃ w2,
    deploy_latest_frames false v project w = (Ok tt, w2)
    ∧ (out w1 ++ [EDeployingFrames; EDeployed (length staged)])
        `prefix_of` out w2
    ∧ (∀ f, f ∈ staged →
            is_file (root w2) (materials </> f) = true
            ∧ stat (materials </> f) (root w2) = stat (S </> f) (root w1))
    ∧ (∀ f, f ∈ glob (root w) S "frame_" ".png" → f ∈ staged).
Proof.
  intros key w0 materials staged Hfind Hstage Hmat Hapart Hfiles Hfree.
  apply apart_prefix in Hapart as [Ha1 Ha2].
  rewrite forallb_forall in Hfiles, Hfree.
  assert (∃ mm mes, stat materials (root w1) = Some (Dir mm mes))
    as (mm & mes & HMt).
  { unfold is_dir in Hmat.
    destruct (stat materials (root w1)) as [[|mm mes]|]; try done. eauto. }
  set (frames := sorted staged).
  set (w1' := World (root w1) (now w1) (out w1 ++ [EDeployingFrames])).
  destruct (copy_frames_spec S materials Ha1 Ha2 frames 0 w1' mm mes)
    as (w3 & mes3 & Hloop & Hnow3 & Hout3 & HMt3 & Hnew & _ & _).
  { done. }
  { intros f Hf. apply Hfiles. by apply list_elem_of_In, glob_sorted_elem. }
  { intros f Hf. apply negb_true_iff, Hfree.
    by apply list_elem_of_In, glob_sorted_elem. }
  set (w3' := World (root w3) (now w3) (out w3 ++ [EDeployed (0 + length frames)])).
  destruct (copy_manifest_to_project_spec S project w3')
    as (w4 & Hman & Hnow4 & Hcases).
  exists (World (root w4) (now w4) (out w4 ++ [ECleanupSkipped])).
  assert (length frames = length staged) as Hlen.
  { unfold frames, sorted. by rewrite merge_sort_Permutation. }
  split; [|split; [|split]].
  - unfold deploy_latest_frames. cbv zeta. rewrite bind_print.
    fold key. fold w0. rewrite (bind_Ok _ _ _ _ _ Hfind).
    rewrite (bind_Ok _ _ _ _ _ Hstage). rewrite bind_reads.
    fold materials. rewrite Hmat. cbn [negb]. rewrite bind_print, bind_reads.
    cbn [root]. fold staged. fold frames. fold w1'.
    rewrite (bind_Ok _ _ _ _ _ Hloop). rewrite bind_print. fold w3'.
    by rewrite (bind_Ok _ _ _ _ _ Hman).
  - cbn [out].
    assert ((out w1 ++ [EDeployingFrames; EDeployed (length staged)])
            `prefix_of` out w4) as Hp.
    { assert (out w3' = out w1 ++ [EDeployingFrames; EDeployed (length staged)])
        as <-.
      { unfold w3'. cbn [out]. rewrite Hout3. unfold w1'. cbn [out].
        rewrite <- app_assoc. simpl. by rewrite Hlen. }
      destruct Hcases as [[_ ->]|[(e & _ & ->)|(fs' & _ & ->)]];
        [done|by apply prefix_app_r..]. }
    by apply prefix_app_r.
  - intros f Hf. cbn [root].
    assert (stat (materials </> f) (root w3) = stat (S </> f) (root w1)) as H3.
    { rewrite (stat_child _ _ _ _ _ HMt3).
      apply (Hnew f). by apply glob_sorted_elem. }
    assert (stat (materials </> f) (root w4) = stat (materials </> f) (root w3))
      as H4.
    { destruct Hcases as [[_ ->]|[(e & _ & ->)|(fs' & Hcopy & ->)]];
        [done..|]. cbn [root].
      destruct (copy2_Ok _ _ _ _ Hcopy) as (dst' & m' & d' & _ & Hdst & Hput).
      assert (∃ r, dst' = project </> "current_manifest.json" ++ r)
        as (r & ->).
      { destruct Hdst as [-> | ->]; [exists []; by rewrite app_nil_r|eauto]. }
      destruct (materials_apart_from_manifest project f r).
      by apply (stat_put_unrelated _ _ _ _ _ Hput). }
    rewrite H4, H3. split; [|done].
    unfold is_file. rewrite H4, H3.
    apply list_elem_of_In, Hfiles in Hf. done.
  - intros f Hf. unfold staged.
    pose proof (stage_returns_staging _ _ _ _ Hstage) as ->.
    destruct (writes_under_stage P _ _ _ Hstage) as (_ & _ & _ & Hnames).
    unfold glob in *. apply list_elem_of_filter in Hf as [Hm Hf].
    apply list_elem_of_filter. split; [done|]. by apply Hnames.
Qed.

End OrchestratorFacts.


(** When the copy of the manifest into the project raises, the exception is
    caught, a warning with it is printed, and nothing else happens. *)
Lemma deploy_manifest_failure_is_logged (S project : path) (w : world) e :
  exists_ (root w) (S </> "current_manifest.json") = true →
  copy2 (S </> "current_manifest.json") (project </> "current_manifest.json")
    (root w) = Raise e →
  copy_manifest_to_project S project w
  = (Ok tt, World (root w) (now w) (out w ++ [EManifestWarning e])).
Proof.
  intros Hex Hcopy. unfold copy_manifest_to_project, try_except. cbv zeta.
  rewrite bind_reads, Hex. by rewrite (bind_update_Raise _ _ _ e).
Qed.

(** C3.  The copy of the manifest into the staging folder is not guarded.
    On the sample filesystem whose latest run has a directory named
    [manifest.json], [stage_from_latest_run] raises after it has staged the
    frame; nothing is printed about it; the deployment of the view and the
    whole batch end with that exception: the second view is never deployed
    and the closing line is never printed. *)
Theorem staging_manifest_failure_aborts :
  fst (stage_from_latest_run ["out"; "deska"] sample_bad_manifest_world)
  = Raise IsADirectoryError
  ∧ out (snd (stage_from_latest_run ["out"; "deska"]
                sample_bad_manifest_world))
    = [ELatestSource "aa_newest"; EStaging; EStaged 1]
  ∧ fst (deploy_latest_frames string sample_canonicalize sample_canonicalize
           ["out"] false "DeskA" ["p1"] sample_bad_manifest_world)
    = Raise IsADirectoryError
  ∧ fst (main string sample_canonicalize sample_canonicalize ["out"] false
           (Loaded ["DeskA"; "DeskB"]) (Loaded sample_two_desks)
           sample_bad_manifest_world)
    = Raise IsADirectoryError
  ∧ out (snd (main string sample_canonicalize sample_canonicalize ["out"] false
                (Loaded ["DeskA"; "DeskB"]) (Loaded sample_two_desks)
                sample_bad_manifest_world))
    = [EDeploying "deska"; ELatestSource "aa_newest"; EStaging; EStaged 1].
Proof. repeat split; vm_compute; reflexivity. Qed.

Lemma project_map_last_wins_witness :
  ∃ projects,
    build_projects sample_canonicalize sample_projects ∅ = Ok projects
    ∧ projects !! "alpha" = Some ["p2"]
    ∧ projects = {[ "alpha" := ["p2"] ]}.
Proof.
  destruct (project_map_last_wins sample_canonicalize sample_projects)
    as (m & Hm & _ & Hlast & Hone).
  { repeat constructor; by eexists. }
  exists m. split; [exact Hm|]. split.
  - apply (Hlast [ProjectRecord (Some "Alpha") (Some ["p1"])]
             (ProjectRecord (Some "alpha ") (Some ["p2"])) [] ["p2"]);
      [reflexivity|reflexivity|].
    intros r' Hr'. by apply elem_of_nil in Hr'.
  - apply (Hone (ProjectRecord (Some "Alpha") (Some ["p1"]))
             (ProjectRecord (Some "alpha ") (Some ["p2"])) ["p1"] ["p2"]);
      reflexivity.
Defined.

Lemma stage_only_copies_nothing_witness :
  ∃ w2,
    deploy_latest_frames string sample_canonicalize sample_canonicalize
      ["out"] true "DeskA" ["p1"] sample_world = (Ok tt, w2)
    ∧ out w2 = [EDeploying "deska"; ELatestSource "aa_newest"; EStaging;
                EStaged 3; EStageOnly; ECleanupSkipped]
    ∧ ∀ r, stat (["p1"] ++ r) (root w2) = stat (["p1"] ++ r) sample_root.
Proof.
  destruct (stage_only_copies_nothing string sample_canonicalize
              sample_canonicalize ["out"] "DeskA" ["p1"] sample_world
              ["out"; "deska"] ["out"; "deska"; "staging"]
              (snd (stage_from_latest_run ["out"; "deska"]
                      (World sample_root 100 [EDeploying "deska"]))))
    as (w2 & Hrun & _ & Hout & _ & _ & Hproject).
  { vm_compute. reflexivity. }
  { vm_compute. reflexivity. }
  exists w2. split; [exact Hrun|]. split; [exact Hout|].
  apply Hproject; intros H; apply prefix_cons_inv_1 in H; discriminate.
Defined.

Lemma deploy_copies_every_staged_frame_witness :
  ∃ w2,
    deploy_latest_frames string sample_canonicalize sample_canonicalize
      ["out"] false "DeskA" ["p1"] sample_stale_world = (Ok tt, w2)
    ∧ [EDeploying "deska"; ELatestSource "aa_newest"; EStaging; EStaged 3;
       EDeployingFrames; EDeployed 5] `prefix_of` out w2
    ∧ is_file (root w2) ["p1"; "materials"; "frame_004.png"] = true.
Proof.
  destruct (deploy_copies_every_staged_frame string sample_canonicalize
              sample_canonicalize ["out"] "DeskA" ["p1"] sample_stale_world
              ["out"; "deska"] ["out"; "deska"; "staging"]
              (snd (stage_from_latest_run ["out"; "deska"]
                      (World (root sample_stale_world) 100
                         [EDeploying "deska"]))))
    as (w2 & Hrun & Hout & Hcopied & _).
  { vm_compute. reflexivity. }
  { vm_compute. reflexivity. }
  { vm_compute. reflexivity. }
  { vm_compute. reflexivity. }
  { vm_compute. reflexivity. }
  { vm_compute. reflexivity. }
  exists w2. split; [exact Hrun|]. split; [exact Hout|].
  apply (Hcopied "frame_004.png"). vm_compute.
  do 4 apply list_elem_of_further. apply list_elem_of_here.
Defined.

(** * The mode arbiter *)

Section DaemonFacts.

Variable STATIC_DIR : path.
Variable DEPLOY_SCRIPT_NAME : string.
Variable lower : string -> string.

Local Abbreviation is_deploy_running := (is_deploy_running DEPLOY_SCRIPT_NAME lower).
Local Abbreviation pick_random_static := (pick_random_static STATIC_DIR).
Local Abbreviation static_pool := (static_pool STATIC_DIR).
Local Abbreviation tick := (tick STATIC_DIR DEPLOY_SCRIPT_NAME lower).
Local Abbreviation ticks := (ticks STATIC_DIR DEPLOY_SCRIPT_NAME lower).

Lemma pick_random_static_None fs r :
  pick_random_static fs r = None ↔ static_pool fs = [].
Proof.
  unfold pick_random_static. fold (static_pool fs).
  destruct (static_pool fs) as [|c cs] eqn:E; [done|].
  split; [|done]. unfold random_choice. intros H.
  apply nth_error_None in H.
  pose proof (Nat.mod_upper_bound r (length (c :: cs)) ltac:(done)). lia.
Qed.

Lemma tick_active obs s :
  is_deploy_running (tasklist obs) = true →
  tick obs s =
  if daemon_state_eqb s Static then (s, [Sleep CHECK_INTERVAL])
  else match pick_random_static (files obs) (draw obs) with
       | Some img =>
           (Static, [PrintDetected; SetStaticWallpaper img; Sleep CHECK_INTERVAL])
       | None =>
           (s, [PrintDetected; PrintNoStaticImages; Sleep CHECK_INTERVAL])
       end.
Proof.
  intros H. unfold tick. rewrite H. by destruct s.
Qed.

Lemma tick_inactive obs s :
  is_deploy_running (tasklist obs) = false →
  tick obs s =
  if daemon_state_eqb s Satellite then (s, [Sleep CHECK_INTERVAL])
  else (Satellite, [PrintRestoring; RestoreWallpaperEngine; Sleep CHECK_INTERVAL]).
Proof.
  intros H. unfold tick. rewrite H. by destruct s.
Qed.

(** Over any sequence of observations the wallpaper calls take turns. *)
Lemma ticks_alternate (observations : list observation) (s : daemon_state) :
  calls_alternate s (snd (ticks observations s)) = true.
Proof.
  revert s. induction observations as [|obs rest IH]; intros s; [done|].
  simpl. unfold tick.
  destruct (is_deploy_running (tasklist obs)); simpl.
  - destruct (daemon_state_eqb s Static) eqn:Es; simpl.
    + specialize (IH s). by destruct (ticks rest s).
    + destruct (pick_random_static (files obs) (draw obs)).
      * specialize (IH Static). destruct (ticks rest Static). simpl.
        by rewrite Es.
      * specialize (IH s). by destruct (ticks rest s).
  - destruct (daemon_state_eqb s Satellite) eqn:Es; simpl.
    + specialize (IH s). by destruct (ticks rest s).
    + specialize (IH Satellite). destruct (ticks rest Satellite). simpl.
      by rewrite Es.
Qed.

Lemma two_active_ticks (obs obs' : observation) (s : daemon_state) :
  is_deploy_running (tasklist obs) = true →
  is_deploy_running (tasklist obs') = true →
  (static_switches (snd (ticks [obs; obs'] s)) ≤ 1)%nat
  ∧ (static_switches (snd (tick obs s)) = 1%nat →
     snd (tick obs' (fst (tick obs s))) = [Sleep CHECK_INTERVAL]
     ∧ static_switches (snd (ticks [obs; obs'] s)) = 1%nat)
  ∧ (s ≠ Static → static_pool (files obs) ≠ [] →
     static_switches (snd (ticks [obs; obs'] s)) = 1%nat).
Proof.
  intros H H'.
  assert (ticks [obs; obs'] s =
          (fst (tick obs' (fst (tick obs s))),
           snd (tick obs s) ++ snd (tick obs' (fst (tick obs s))))) as ->.
  { simpl. destruct (tick obs s) as [s1 t1]. simpl.
    destruct (tick obs' s1) as [s2 t2]. simpl. by rewrite app_nil_r. }
  rewrite (tick_active obs s H).
  destruct (daemon_state_eqb s Static) eqn:Es.
  - destruct s; try done. cbn [fst snd]. rewrite (tick_active obs' Static H').
    cbn. split; [lia|]. split; [done|]. done.
  - destruct (pick_random_static (files obs) (draw obs)) as [img|] eqn:Hp.
    + cbn [fst snd]. rewrite (tick_active obs' Static H'). cbn.
      split; [lia|]. split; done.
    + cbn [fst snd]. rewrite (tick_active obs' s H'), Es.
      split; [|split].
      * destruct (pick_random_static (files obs') (draw obs')); cbn; lia.
      * cbn. done.
      * intros _ Hpool. by apply pick_random_static_None in Hp.
Qed.

(** When two consecutive ticks see the deploy active, no static image is
    set if the state is [Static] already or neither tick finds an image,
    and one is set if the state is not [Static] and the second tick finds
    an image. *)
Lemma two_active_ticks_count (obs obs' : observation) (s : daemon_state) :
  is_deploy_running (tasklist obs) = true →
  is_deploy_running (tasklist obs') = true →
  (s = Static → static_switches (snd (ticks [obs; obs'] s)) = 0%nat)
  ∧ (static_pool (files obs) = [] → static_pool (files obs') = [] →
     static_switches (snd (ticks [obs; obs'] s)) = 0%nat)
  ∧ (s ≠ Static → static_pool (files obs') ≠ [] →
     static_switches (snd (ticks [obs; obs'] s)) = 1%nat).
Proof.
  intros H H'.
  assert (ticks [obs; obs'] s =
          (fst (tick obs' (fst (tick obs s))),
           snd (tick obs s) ++ snd (tick obs' (fst (tick obs s))))) as ->.
  { simpl. destruct (tick obs s) as [s1 t1]. simpl.
    destruct (tick obs' s1) as [s2 t2]. simpl. by rewrite app_nil_r. }
  rewrite (tick_active obs s H).
  destruct (daemon_state_eqb s Static) eqn:Es.
  - destruct s; try done. cbn [fst snd]. rewrite (tick_active obs' Static H').
    cbn. split; [done|]. split; [done|]. done.
  - assert (s ≠ Static) as Hs by (intros ->; done).
    destruct (pick_random_static (files obs) (draw obs)) as [img|] eqn:Hp.
    + cbn [fst snd]. rewrite (tick_active obs' Static H'). cbn.
      split; [done|]. split; [|done].
      intros Hpool. apply (pick_random_static_None _ (draw obs)) in Hpool.
      by rewrite Hpool in Hp.
    + cbn [fst snd]. rewrite (tick_active obs' s H'), Es.
      destruct (pick_random_static (files obs') (draw obs')) as [img'|] eqn:Hp'.
      * cbn. split; [done|]. split; [|done].
        intros _ Hpool'.
        apply (pick_random_static_None _ (draw obs')) in Hpool'.
        by rewrite Hpool' in Hp'.
      * cbn. split; [done|]. split; [done|].
        intros _ Hpool'. by apply pick_random_static_None in Hp'.
Qed.

(** C6, amended.  The arbiter is debounced.  A tick whose observation
    agrees with the held state (deploy active and state [Static], or deploy
    not active and state [Satellite]) only sleeps.  A tick issues a
    wallpaper call, or changes the held state, only when the observation
    disagrees with the held state.  Over every sequence of observations the
    calls take turns: between two calls that set a static image the live
    wallpaper is restored, and the other way round.  Of two consecutive
    ticks that both see the deploy active at most one switches to a static
    image, never both: when the first one does, the second only sleeps.
    There is exactly one switch when the state was not [Static] and one of
    the two ticks finds a static image, as for the first two ticks of
    [daemon_loop] with an image to be had; there is none when the state is
    [Static] already, and none when neither tick finds a static image. *)
Theorem arbiter_debounces (obs obs' : observation) (s : daemon_state) :
  (is_deploy_running (tasklist obs) = true → s = Static →
   tick obs s = (Static, [Sleep CHECK_INTERVAL]))
  ∧ (is_deploy_running (tasklist obs) = false → s = Satellite →
     tick obs s = (Satellite, [Sleep CHECK_INTERVAL]))
  ∧ (wallpaper_calls (snd (tick obs s)) ≠ [] →
     (is_deploy_running (tasklist obs) = true ∧ s ≠ Static)
     ∨ (is_deploy_running (tasklist obs) = false ∧ s ≠ Satellite))
  ∧ (fst (tick obs s) ≠ s →
     (is_deploy_running (tasklist obs) = true ∧ s ≠ Static)
     ∨ (is_deploy_running (tasklist obs) = false ∧ s ≠ Satellite))
  ∧ (∀ observations, calls_alternate s (snd (ticks observations s)) = true)
  ∧ (is_deploy_running (tasklist obs) = true →
     is_deploy_running (tasklist obs') = true →
     (static_switches (snd (ticks [obs; obs'] s)) ≤ 1)%nat
     ∧ (static_switches (snd (tick obs s)) = 1%nat →
        snd (tick obs' (fst (tick obs s))) = [Sleep CHECK_INTERVAL]
        ∧ static_switches (snd (ticks [obs; obs'] s)) = 1%nat)
     ∧ (s ≠ Static → static_pool (files obs) ≠ [] →
        static_switches (snd (ticks [obs; obs'] s)) = 1%nat)
     ∧ (static_pool (files obs) ≠ [] →
        static_switches
          (snd (daemon_loop STATIC_DIR DEPLOY_SCRIPT_NAME lower [obs; obs']))
        = 1%nat)
     ∧ (s ≠ Static → static_pool (files obs') ≠ [] →
        static_switches (snd (ticks [obs; obs'] s)) = 1%nat)
     ∧ (s = Static → static_switches (snd (ticks [obs; obs'] s)) = 0%nat)
     ∧ (static_pool (files obs) = [] → static_pool (files obs') = [] →
        static_switches (snd (ticks [obs; obs'] s)) = 0%nat)).
Proof.
  split; [|split; [|split; [|split; [|split]]]].
  - intros H ->. by rewrite tick_active.
  - intros H ->. by rewrite tick_inactive.
  - destruct (is_deploy_running (tasklist obs)) eqn:H.
    + rewrite tick_active by done. destruct s; simpl; try done; intros _; by left.
    + rewrite tick_inactive by done. destruct s; simpl; try done; intros _; by right.
  - destruct (is_deploy_running (tasklist obs)) eqn:H.
    + rewrite tick_active by done. destruct s; simpl; try done; intros _; by left.
    + rewrite tick_inactive by done. destruct s; simpl; try done; intros _; by right.
  - intros observations. apply ticks_alternate.
  - intros H H'.
    destruct (two_active_ticks obs obs' s H H') as (H1 & H2 & H3).
    destruct (two_active_ticks_count obs obs' s H H') as (H5 & H6 & H7).
    split; [done|]. split; [done|]. split; [done|].
    split; [|split; [done|split; done]].
    intros Hpool.
    destruct (two_active_ticks obs obs' Unknown H H') as (_ & _ & H4).
    unfold daemon_loop.
    destruct (ticks [obs; obs'] Unknown) as [s' trace]. by apply H4.
Qed.

(** C7.  When the process-list query raises, whatever the exception,
    [is_deploy_running] returns [False]; the tick that made the query takes
    no static image and leaves the arbiter in the [Satellite] state: it
    stays there when it held that state, and otherwise restores the live
    wallpaper. *)
Theorem failed_query_reads_as_no_deploy (e : exn) (fs : node) (r : nat)
  (s : daemon_state) :
  let obs := Observation (Raise e) fs r in
  is_deploy_running (tasklist obs) = false
  ∧ fst (tick obs s) = Satellite
  ∧ static_switches (snd (tick obs s)) = 0%nat
  ∧ (s = Satellite → tick obs s = (Satellite, [Sleep CHECK_INTERVAL]))
  ∧ (s ≠ Satellite →
     tick obs s =
     (Satellite, [PrintRestoring; RestoreWallpaperEngine; Sleep CHECK_INTERVAL])).
Proof.
  intros obs. assert (is_deploy_running (tasklist obs) = false) as H by done.
  rewrite (tick_inactive obs s H). split; [done|].
  by destruct s.
Qed.

(** C10.  While a deploy is seen and the held state is not [Static]: with
    an empty pool of static images the tick prints its warning, issues no
    wallpaper call and keeps the held state, [Unknown] included, and so does
    every following tick that sees the same, so the switch is tried again
    at each of them; and a tick leaves the state at [Static] only with a
    pool that is not empty, after the call that sets an image of it. *)
Theorem empty_pool_leaves_state (obs : observation) (s : daemon_state) :
  is_deploy_running (tasklist obs) = true →
  s ≠ Static →
  (static_pool (files obs) = [] →
   tick obs s = (s, [PrintDetected; PrintNoStaticImages; Sleep CHECK_INTERVAL])
   ∧ wallpaper_calls (snd (tick obs s)) = []
   ∧ ∀ later,
       Forall (fun o => is_deploy_running (tasklist o) = true
                        ∧ static_pool (files o) = []) later →
       fst (ticks (obs :: later) s) = s
       ∧ wallpaper_calls (snd (ticks (obs :: later) s)) = []
       ∧ snd (ticks (obs :: later) s)
         = concat (map (fun _ =>
             [PrintDetected; PrintNoStaticImages; Sleep CHECK_INTERVAL])
             (obs :: later)))
  ∧ (fst (tick obs s) = Static →
     static_pool (files obs) ≠ []
     ∧ ∃ img, In img (static_pool (files obs))
              ∧ tick obs s =
                (Static,
                 [PrintDetected; SetStaticWallpaper img; Sleep CHECK_INTERVAL])).
Proof.
  intros Hact Hs.
  assert (daemon_state_eqb s Static = false) as Es by (by destruct s).
  assert (∀ o, is_deploy_running (tasklist o) = true → static_pool (files o) = [] →
            tick o s = (s, [PrintDetected; PrintNoStaticImages; Sleep CHECK_INTERVAL]))
    as Hone.
  { intros o Ho Hp. rewrite (tick_active o s Ho), Es.
    apply (pick_random_static_None _ (draw o)) in Hp. by rewrite Hp. }
  split.
  - intros Hpool. split; [by apply Hone|]. split; [by rewrite Hone|].
    intros later Hlater.
    assert (Forall (fun o => is_deploy_running (tasklist o) = true
                        ∧ static_pool (files o) = []) (obs :: later)) as Hall.
    { by constructor. }
    clear Hlater Hpool Hact. induction Hall as [|o os [Ho Hp] _ IH].
    + done.
    + simpl. rewrite (Hone o Ho Hp).
      destruct (ticks os s) as [s' tr] eqn:E. simpl in *.
      destruct IH as (-> & Hc & ->). repeat split; try done.
  - rewrite (tick_active obs s Hact), Es.
    destruct (pick_random_static (files obs) (draw obs)) as [img|] eqn:Hp.
    + intros _. split.
      * intros H. apply (pick_random_static_None _ (draw obs)) in H. congruence.
      * exists img. split; [|done].
        unfold pick_random_static in Hp. fold (static_pool (files obs)) in Hp.
        destruct (static_pool (files obs)); [done|].
        by apply nth_error_In in Hp.
    + simpl. intros ->. done.
Qed.

End DaemonFacts.

(** C6, as first stated, fails: two consecutive ticks that both see the
    deploy active, with no static image in [STATIC_DIR], switch to no
    static image at all, not to exactly one. *)
Lemma arbiter_debounces_counterexample :
  is_deploy_running "deploy.exe" ascii_lower (tasklist sample_busy_no_images)
  = true
  ∧ static_switches
      (snd (daemon_loop ["static"] "deploy.exe" ascii_lower
              [sample_busy_no_images; sample_busy_no_images])) = 0%nat
  ∧ ¬ (∀ (STATIC_DIR : path) (DEPLOY_SCRIPT_NAME : string)
         (lower : string → string) (obs obs' : observation),
         is_deploy_running DEPLOY_SCRIPT_NAME lower (tasklist obs) = true →
         is_deploy_running DEPLOY_SCRIPT_NAME lower (tasklist obs') = true →
         static_switches
           (snd (daemon_loop STATIC_DIR DEPLOY_SCRIPT_NAME lower [obs; obs']))
         = 1%nat).
Proof.
  split; [vm_compute; reflexivity|]. split; [vm_compute; reflexivity|].
  intros H.
  specialize (H ["static"] "deploy.exe" ascii_lower
                sample_busy_no_images sample_busy_no_images
                ltac:(vm_compute; reflexivity) ltac:(vm_compute; reflexivity)).
  vm_compute in H. discriminate.
Qed.

Lemma empty_pool_leaves_state_witness :
  tick ["static"] "deploy.exe" ascii_lower sample_busy_no_images Unknown
  = (Unknown, [PrintDetected; PrintNoStaticImages; Sleep CHECK_INTERVAL]).
Proof.
  destruct (empty_pool_leaves_state ["static"] "deploy.exe" ascii_lower
              sample_busy_no_images Unknown eq_refl) as [H _].
  - discriminate.
  - apply H. reflexivity.
Defined.

(** * Further facts about the orchestrator *)

(** X1.  Staging only reads the run folders: however [stage_from_latest_run]
    ends, with a result, without one or with an exception, every path that
    is neither the staging folder, below it nor above it is as before, so
    every run folder and all it holds are untouched; the staging folder
    loses none of its names; the clock is as before and nothing printed is
    taken back. *)
Theorem staging_keeps_to_its_folder (P : path) (w : world) :
  let w' := snd (stage_from_latest_run P w) in
  now w' = now w
  ∧ out w `prefix_of` out w'
  ∧ (∀ q, ¬ (P </> "staging") `prefix_of` q →
          ¬ q `prefix_of` (P </> "staging") →
          stat q (root w') = stat q (root w))
  ∧ (∀ run rest, run ≠ "staging" →
       stat (P </> run ++ rest) (root w') = stat (P </> run ++ rest) (root w))
  ∧ names_of (root w) (P </> "staging") ⊆ names_of (root w') (P </> "staging").
Proof.
  intros w'. destruct (stage_from_latest_run P w) as [r w1] eqn:Hrun.
  destruct (writes_under_stage P _ _ _ Hrun) as (Hn & Ho & Hf & Hs).
  subst w'. cbn [snd]. repeat split; try done.
  intros run rest Hne. destruct (run_outside_staging P run rest Hne).
  by apply Hf.
Qed.

Lemma mkdir_keeps_names t S fs fs' :
  mkdir_exist_ok t S fs = Ok fs' →
  is_dir fs' S = true
  ∧ names_of fs' S = names_of fs S
  ∧ ∀ q, ¬ q `prefix_of` S → stat q fs' = stat q fs.
Proof.
  unfold mkdir_exist_ok, is_dir, names_of.
  destruct (stat S fs) as [[|m es]|] eqn:HS; [done| |].
  - intros [= <-]. by rewrite HS.
  - intros Hput.
    assert (stat S fs' = Some (Dir t [])) as HS'.
    { clear HS. revert fs fs' Hput. induction S as [|x S IH]; intros fs fs' Hput.
      - by injection Hput as <-.
      - simpl in Hput. destruct fs as [|m es]; [done|].
        destruct S as [|y S].
        + injection Hput as <-. simpl. by rewrite assoc_upsert_eq.
        + destruct (assoc x es) as [c|]; [|done].
          destruct (put (y :: S) (Dir t []) c) as [c'|] eqn:Hc'; [|done].
          injection Hput as <-. simpl. rewrite assoc_upsert_eq.
          by apply (IH c c'). }
    rewrite HS'. split; [done|]. split; [done|].
    intros q Hq. destruct (decide (S `prefix_of` q)) as [[k ->]|Hn].
    + rewrite !(stat_app S k), HS, HS'. simpl.
      destruct k as [|y k]; [|done]. destruct Hq. by rewrite app_nil_r.
    + by apply (stat_put_unrelated _ _ _ _ _ Hput).
Qed.

Lemma sorted_nil : sorted [] = [].
Proof. reflexivity. Qed.

(** X5.  When the latest run holds no name matching [*.png], staging
    returns [None] after it has printed the name of the run, the staging
    line and the no-frames line.  By then the staging folder exists: it was
    created empty when it was missing, and is left with the names it had
    otherwise.  Nothing else has changed. *)
Theorem stage_without_frames (P : path) (w : world) m es latest :
  stat P (root w) = Some (Dir m es) →
  py_max (all_runs (root w) P (map fst es))
         (fun d => st_mtime (root w) (P </> d)) = Ok latest →
  is_file (root w) (P </> "staging") = false →
  glob (root w) (P </> latest) "" ".png" = [] →
  ∃ fs',
    stage_from_latest_run P w
    = (Ok None,
       World fs' (now w) (out w ++ [ELatestSource latest; EStaging; ENoPng]))
    ∧ is_dir fs' (P </> "staging") = true
    ∧ names_of fs' (P </> "staging") = names_of (root w) (P </> "staging")
    ∧ ∀ q, ¬ q `prefix_of` (P </> "staging") → stat q fs' = stat q (root w).
Proof.
  intros HP Hmax Hstg Hglob.
  assert (latest ≠ "staging") as Hl.
  { apply py_max_elem, all_runs_spec in Hmax. tauto. }
  destruct (mkdir_child (now w) P "staging" (root w) m es HP Hstg)
    as (fs1 & ms & ses & Hmk & _ & _).
  destruct (mkdir_keeps_names _ _ _ _ Hmk) as (Hdir & Hnames & Hfr).
  exists fs1. split; [|done].
  unfold stage_from_latest_run.
  rewrite (bind_query_Ok _ _ w (map fst es)) by (unfold iterdir; by rewrite HP).
  rewrite bind_reads.
  destruct (all_runs (root w) P (map fst es)) as [|r0 rs] eqn:Hruns; [done|].
  rewrite (bind_query_Ok _ _ w latest) by exact Hmax.
  cbv zeta. rewrite bind_print.
  rewrite (bind_update_Ok _ _ _ fs1) by exact Hmk.
  rewrite bind_print, bind_reads. cbn [root now out].
  assert (glob fs1 (P </> latest) "" ".png" = []) as ->.
  { rewrite (glob_stat_eq (root w) fs1); [done|]. apply Hfr.
    destruct (run_outside_staging P latest [] Hl) as [_ H].
    by rewrite app_nil_r in H. }
  rewrite sorted_nil, bind_print. unfold ret. cbn [root now out].
  by rewrite <- !app_assoc.
Qed.

(** X6.  When [staging] in the parent directory is a regular file, staging
    raises [FileExistsError] right after it has printed the name of the
    latest run, and writes nothing. *)
Theorem stage_blocked_by_file (P : path) (w : world) m es latest :
  stat P (root w) = Some (Dir m es) →
  py_max (all_runs (root w) P (map fst es))
         (fun d => st_mtime (root w) (P </> d)) = Ok latest →
  is_file (root w) (P </> "staging") = true →
  stage_from_latest_run P w
  = (Raise FileExistsError,
     World (root w) (now w) (out w ++ [ELatestSource latest])).
Proof.
  intros HP Hmax Hstg.
  unfold stage_from_latest_run.
  rewrite (bind_query_Ok _ _ w (map fst es)) by (unfold iterdir; by rewrite HP).
  rewrite bind_reads.
  destruct (all_runs (root w) P (map fst es)) as [|r0 rs] eqn:Hruns; [done|].
  rewrite (bind_query_Ok _ _ w latest) by exact Hmax.
  cbv zeta. rewrite bind_print.
  rewrite (bind_update_Raise _ _ _ FileExistsError); [done|].
  cbn [root now out]. unfold mkdir_exist_ok. unfold is_file in Hstg.
  by destruct (stat (P </> "staging") (root w)) as [[|]|].
Qed.


Section OrchestratorMore.

Variable view : Type.
Variable build_view_key : view -> string.
Variable canonicalize : string -> string.
Variable OUTPUT_BASE_DIR : path.

Local Abbreviation scan_children := (scan_children canonicalize).
Local Abbreviation legacy_match := (legacy_match canonicalize).
Local Abbreviation record_key := (record_key canonicalize).
Local Abbreviation last_filed := (last_filed canonicalize).
Local Abbreviation find_parent_dir_for_key :=
  (find_parent_dir_for_key canonicalize).
Local Abbreviation deploy_latest_frames :=
  (deploy_latest_frames view build_view_key canonicalize OUTPUT_BASE_DIR).
Local Abbreviation build_projects := (build_projects canonicalize).
Local Abbreviation deploy_view :=
  (deploy_view view build_view_key canonicalize OUTPUT_BASE_DIR).
Local Abbreviation main :=
  (main view build_view_key canonicalize OUTPUT_BASE_DIR).
Local Abbreviation batch_roots := (batch_roots OUTPUT_BASE_DIR).



Lemma build_projects_Raise rs acc e :
  build_projects rs acc = Raise e →
  e = KeyError "project_path" ∧ ∃ r, r ∈ rs ∧ project_path r = None.
Proof.
  revert acc. induction rs as [|r rs IH]; intros acc; simpl; [done|].
  destruct (project_path r) as [p|] eqn:Hp.
  - intros H. destruct (IH _ H) as (-> & r' & Hr' & Hnone).
    split; [done|]. exists r'. split; [by apply list_elem_of_further|done].
  - intros [= <-]. split; [done|]. exists r. split; [apply list_elem_of_here|done].
Qed.

Lemma build_projects_Ok rs acc m :
  build_projects rs acc = Ok m →
  Forall (fun r => is_Some (project_path r)) rs.
Proof.
  revert acc. induction rs as [|r rs IH]; intros acc; simpl; [done|].
  destruct (project_path r) as [p|] eqn:Hp; [|done].
  intros H. constructor; [by eexists|]. by eapply IH.
Qed.

(** X3.  Building the project map raises [KeyError] on ["project_path"]
    exactly when some record has no project path, wherever the record
    stands in the list; [main] then ends with that exception before it has
    printed or written anything, whatever the views.  The map is built
    exactly when every record has a project path. *)
Theorem missing_project_path_aborts_batch (views : list view)
  (projs_raw : list project_record) (STAGE_ONLY : bool) (w : world) :
  ((∃ r, r ∈ projs_raw ∧ project_path r = None) ↔
   build_projects projs_raw ∅ = Raise (KeyError "project_path"))
  ∧ ((∃ r, r ∈ projs_raw ∧ project_path r = None) →
     main STAGE_ONLY (Loaded views) (Loaded projs_raw) w
     = (Raise (KeyError "project_path"), w))
  ∧ (Forall (fun r => is_Some (project_path r)) projs_raw ↔
     ∃ projects, build_projects projs_raw ∅ = Ok projects).
Proof.
  assert ((∃ r, r ∈ projs_raw ∧ project_path r = None) →
          build_projects projs_raw ∅ = Raise (KeyError "project_path")) as Hbad.
  { intros (r & Hr & Hnone).
    destruct (build_projects projs_raw ∅) as [m|e] eqn:E.
    - apply build_projects_Ok in E. rewrite Forall_forall in E.
      destruct (E r Hr) as [p Hp]. congruence.
    - by apply build_projects_Raise in E as [-> _]. }
  split; [|split].
  - split; [done|]. intros H. by apply build_projects_Raise in H as [_ H].
  - intros H. unfold main. by rewrite (bind_query_Raise _ _ _ _ (Hbad H)).
  - split.
    + intros H. destruct (build_projects_lookup canonicalize _ H ∅) as (m & Hm & _). eauto.
    + intros [m Hm]. by apply build_projects_Ok in Hm.
Qed.

(** X4.  With the map [main] has built, a view goes to the project path of
    the last record whose canonicalized base name is the view key; failing
    that, of the last record whose canonicalized base name is the
    canonicalized view key; and when no record has either key the view is
    skipped with a line that says so. *)
Theorem views_meet_projects_by_key (projs_raw : list project_record)
  (projects : gmap string path) (STAGE_ONLY : bool) (v : view) :
  build_projects projs_raw ∅ = Ok projects →
  let key := build_view_key v in
  deploy_view STAGE_ONLY projects v
  = match last_filed key projs_raw with
    | Some target => deploy_latest_frames STAGE_ONLY v target
    | None =>
        match last_filed (canonicalize key) projs_raw with
        | Some target => deploy_latest_frames STAGE_ONLY v target
        | None => print (ESkipping key)
        end
    end
  ∧ ((∀ r, r ∈ projs_raw →
           record_key r ≠ key ∧ record_key r ≠ canonicalize key) →
     deploy_view STAGE_ONLY projects v = print (ESkipping key)).
Proof.
  intros Hbuild key.
  pose proof (build_projects_Ok _ _ _ Hbuild) as Hall.
  destruct (build_projects_lookup canonicalize _ Hall ∅) as (m & Hm & Hlook).
  assert (m = projects) as -> by congruence.
  assert (∀ k, projects !! k = last_filed k projs_raw) as Hlook'.
  { intros k. rewrite Hlook, lookup_empty. by destruct (last_filed k projs_raw). }
  assert (deploy_view STAGE_ONLY projects v
  = match last_filed key projs_raw with
    | Some target => deploy_latest_frames STAGE_ONLY v target
    | None =>
        match last_filed (canonicalize key) projs_raw with
        | Some target => deploy_latest_frames STAGE_ONLY v target
        | None => print (ESkipping key)
        end
    end) as Heq.
  { unfold deploy_view. cbv zeta. fold key. by rewrite !Hlook'. }
  split; [done|]. intros Hnone. rewrite Heq.
  rewrite (last_filed_None canonicalize key projs_raw) by (intros r Hr; by apply Hnone).
  by rewrite (last_filed_None canonicalize (canonicalize key) projs_raw)
    by (intros r Hr; by apply Hnone).
Qed.


(** X7.  Without the stage-only flag, a deployment whose staging succeeded
    and whose project has no [materials] directory prints that and returns
    normally: nothing is copied, and what was staged stays staged. *)
Theorem deploy_without_materials (v : view) (project : path) (w : world)
  (P S : path) (w1 : world) :
  let key := build_view_key v in
  let w0 := World (root w) (now w) (out w ++ [EDeploying key]) in
  find_parent_dir_for_key OUTPUT_BASE_DIR key w0 = (Ok (Some P), w0) →
  stage_from_latest_run P w0 = (Ok (Some S), w1) →
  is_dir (root w1) (project </> "materials") = false →
  deploy_latest_frames false v project w
  = (Ok tt, World (root w1) (now w1) (out w1 ++ [ENoMaterials project])).
Proof.
  intros key w0 Hfind Hstage Hmat.
  unfold deploy_latest_frames. cbv zeta. rewrite bind_print.
  fold key. fold w0. rewrite (bind_Ok _ _ _ _ _ Hfind).
  rewrite (bind_Ok _ _ _ _ _ Hstage). by rewrite bind_reads, Hmat.
Qed.


Lemma outside_below roots R S q :
  R ∈ roots → R `prefix_of` S → outside roots q →
  ¬ S `prefix_of` q ∧ ¬ q `prefix_of` S.
Proof.
  intros HR HRS Hout. unfold outside in Hout. rewrite Forall_forall in Hout.
  destruct (Hout R HR) as [H1 H2]. split.
  - intros H. apply H1. by etrans.
  - intros H. destruct (prefix_weak_total _ _ _ H HRS); done.
Qed.

Lemma confined_of_writes_under {A} roots R S (c : M A) :
  R ∈ roots → R `prefix_of` S → writes_under S c → confined roots c.
Proof.
  intros HR HRS Hc w r w' Hrun.
  destruct (Hc _ _ _ Hrun) as (Hn & Ho & Hf & _).
  split; [done|]. split; [done|]. intros q Hq.
  destruct (outside_below _ _ _ _ HR HRS Hq). by apply Hf.
Qed.

Lemma confined_reads_only {A} roots (c : M A) :
  (∀ w r w', c w = (r, w') → root w' = root w ∧ now w' = now w
                              ∧ out w `prefix_of` out w') →
  confined roots c.
Proof.
  intros Hc w r w' Hrun. destruct (Hc _ _ _ Hrun) as (Hr & Hn & Ho).
  split; [done|]. split; [done|]. intros q _. by rewrite Hr.
Qed.

Lemma confined_ret {A} roots (a : A) : confined roots (ret a).
Proof. apply confined_reads_only. by intros w r w' [= <- <-]. Qed.

Lemma confined_print roots e : confined roots (print e).
Proof.
  apply confined_reads_only. intros w r w' [= <- <-].
  split; [done|]. split; [done|]. by apply prefix_app_r.
Qed.

Lemma confined_reads {A} roots (f : node → A) : confined roots (reads f).
Proof. apply confined_reads_only. by intros w r w' [= <- <-]. Qed.

Lemma confined_query {A} roots (f : node → outcome A) :
  confined roots (query f).
Proof. apply confined_reads_only. by intros w r w' [= <- <-]. Qed.

(** Sequencing, when the second part is confined for every value the first
    part can return. *)
Lemma confined_bind {A B} roots (Q : A → Prop) (c : M A) (k : A → M B) :
  confined roots c →
  (∀ w a w', c w = (Ok a, w') → Q a) →
  (∀ a, Q a → confined roots (k a)) →
  confined roots (bind c k).
Proof.
  intros Hc HQ Hk w r w'. unfold bind.
  destruct (c w) as [[a|e] w1] eqn:E.
  - intros H. destruct (Hc _ _ _ E) as (Hn & Ho & Hf).
    destruct (Hk a (HQ _ _ _ E) _ _ _ H) as (Hn' & Ho' & Hf').
    split; [congruence|]. split; [by etrans|].
    intros q Hq. by rewrite Hf', Hf.
  - intros [= <- <-]. by apply (Hc _ _ _ E).
Qed.

Lemma confined_seq {A B} roots (c : M A) (k : A → M B) :
  confined roots c → (∀ a, confined roots (k a)) → confined roots (bind c k).
Proof. intros Hc Hk. by apply (confined_bind roots (fun _ => True)). Qed.

Lemma confined_try {A} roots (c : M A) (h : exn → M A) :
  confined roots c → (∀ e, confined roots (h e)) →
  confined roots (try_except c h).
Proof.
  intros Hc Hh w r w'. unfold try_except.
  destruct (c w) as [[a|e] w1] eqn:E.
  - intros [= <- <-]. by apply (Hc _ _ _ E).
  - intros H. destruct (Hc _ _ _ E) as (Hn & Ho & Hf).
    destruct (Hh e _ _ _ H) as (Hn' & Ho' & Hf').
    split; [congruence|]. split; [by etrans|].
    intros q Hq. by rewrite Hf', Hf.
Qed.

Lemma confined_for_each {A} roots (xs : list A) (body : A → M unit) :
  (∀ x, x ∈ xs → confined roots (body x)) → confined roots (for_each xs body).
Proof.
  induction xs as [|x xs IH]; intros Hb; simpl.
  - apply confined_ret.
  - apply confined_seq; [apply Hb, list_elem_of_here|]. intros _.
    apply IH. intros y Hy. apply Hb. by apply list_elem_of_further.
Qed.

Lemma confined_weaken {A} roots roots' (c : M A) :
  roots ⊆ roots' → confined roots c → confined roots' c.
Proof.
  intros Hsub Hc w r w' Hrun. destruct (Hc _ _ _ Hrun) as (Hn & Ho & Hf).
  split; [done|]. split; [done|]. intros q Hq. apply Hf.
  unfold outside in *. rewrite Forall_forall in *. intros S HS.
  by apply Hq, Hsub.
Qed.

Lemma confined_find_parent roots output_root key :
  confined roots (find_parent_dir_for_key output_root key).
Proof.
  apply confined_reads_only. intros w r w' Hrun.
  destruct (find_parent_dir_reads_only canonicalize _ _ _ _ _ Hrun) as [-> _].
  done.
Qed.

(** For a key that is not absolute and has no component [..], the parent
    directory found is at or below the output root. *)
Lemma find_parent_below output_root key w p w' :
  stays_below key = true →
  find_parent_dir_for_key output_root key w = (Ok (Some p), w') →
  output_root `prefix_of` p.
Proof.
  intros Hkey. unfold find_parent_dir_for_key. cbv zeta. rewrite bind_reads.
  destruct (is_dir_joined (root w) output_root key).
  - intros [= <- _]. by apply joinpath_below.
  - unfold query, reads, bind.
    destruct (iterdir (root w) output_root) as [children|e]; [|done].
    intros [= Hscan _].
    apply scan_children_Some in Hscan as (_ & child & _ & _ & -> & _).
    by apply prefix_app_r.
Qed.

Lemma confined_copy_frames roots S project frames copied :
  project ∈ roots →
  confined roots (copy_frames S (project </> "materials") frames copied).
Proof.
  intros Hp. revert copied. induction frames as [|f frames IH]; intros copied.
  - apply confined_ret.
  - simpl. apply confined_seq; [|intros _; apply IH].
    apply (confined_of_writes_under roots project project); [done..|].
    apply (writes_under_copy2 project _ "materials" []).
Qed.

Lemma confined_copy_manifest roots S project :
  project ∈ roots → confined roots (copy_manifest_to_project S project).
Proof.
  intros Hp. unfold copy_manifest_to_project.
  apply confined_try; [|intros e; apply confined_print].
  cbv zeta. apply confined_seq; [apply confined_reads|]. intros [|].
  - apply confined_seq; [|intros _; apply confined_print].
    apply (confined_of_writes_under roots project project); [done..|].
    apply (writes_under_copy2 project _ "current_manifest.json" []).
  - apply confined_ret.
Qed.

(** A deployment whose view key is not absolute and has no component [..]
    writes under the output root and, unless it only stages, under the
    project folder; nowhere else. *)
Lemma confined_deploy (STAGE_ONLY : bool) (v : view) (project : path) :
  stays_below (build_view_key v) = true →
  confined (OUTPUT_BASE_DIR :: if STAGE_ONLY then [] else [project])
    (deploy_latest_frames STAGE_ONLY v project).
Proof.
  intros Hkey.
  set (roots := OUTPUT_BASE_DIR :: if STAGE_ONLY then [] else [project]).
  assert (OUTPUT_BASE_DIR ∈ roots) as Hout by apply list_elem_of_here.
  unfold deploy_latest_frames. cbv zeta.
  apply confined_seq; [apply confined_print|]. intros _.
  apply (confined_bind roots (fun parent =>
    match parent with
    | Some p => OUTPUT_BASE_DIR `prefix_of` p
    | None => True
    end)).
  { apply confined_find_parent. }
  { intros w [p|] w' Hrun; [|done]. by eapply find_parent_below. }
  intros [P|] HP; [|apply confined_print].
  apply (confined_bind roots (fun staged =>
    match staged with
    | Some sd => sd = P </> "staging"
    | None => True
    end)).
  { apply (confined_of_writes_under roots OUTPUT_BASE_DIR (P </> "staging"));
      [done|by apply prefix_app_r|apply writes_under_stage]. }
  { intros w [sd|] w' Hrun; [|done]. by eapply stage_returns_staging. }
  intros [sd|] Hsd; [|apply confined_ret].
  unfold roots. destruct STAGE_ONLY.
  - apply confined_seq; [apply confined_print|]. intros _. apply confined_print.
  - assert (project ∈ [OUTPUT_BASE_DIR; project]) as Hp.
    { apply list_elem_of_further, list_elem_of_here. }
    apply confined_seq; [apply confined_reads|]. intros [|]; cbn [negb].
    + apply confined_seq; [apply confined_print|]. intros _.
      apply confined_seq; [apply confined_reads|]. intros frames.
      apply confined_seq; [by apply confined_copy_frames|]. intros copied.
      apply confined_seq; [apply confined_print|]. intros _.
      apply confined_seq; [by apply confined_copy_manifest|]. intros _.
      apply confined_print.
    + apply confined_print.
Qed.


Lemma last_filed_path k rs p :
  last_filed k rs = Some p → ∃ r, r ∈ rs ∧ project_path r = Some p.
Proof.
  induction rs as [|r rs IH]; simpl; [done|].
  destruct (last_filed k rs) as [q|].
  - intros [= ->]. destruct IH as (r' & Hr' & Hp); [done|].
    exists r'. split; [by apply list_elem_of_further|done].
  - destruct (decide (record_key r = k)); [|done].
    intros Hp. exists r. split; [apply list_elem_of_here|done].
Qed.

Lemma built_projects_come_from_records rs projects k target :
  build_projects rs ∅ = Ok projects →
  projects !! k = Some target →
  ∃ r, r ∈ rs ∧ project_path r = Some target.
Proof.
  intros Hbuild Hk.
  pose proof (build_projects_Ok _ _ _ Hbuild) as Hall.
  destruct (build_projects_lookup canonicalize _ Hall ∅) as (m & Hm & Hlook).
  assert (m = projects) as -> by congruence.
  rewrite Hlook, lookup_empty in Hk. apply (last_filed_path k).
  by destruct (last_filed k rs).
Qed.

Lemma confined_main STAGE_ONLY views_json projects_json :
  (∀ views, views_json = Loaded views →
     Forall (fun v => stays_below (build_view_key v) = true) views) →
  confined (batch_roots STAGE_ONLY projects_json)
    (main STAGE_ONLY views_json projects_json).
Proof.
  intros Hkeys.
  unfold main. destruct views_json as [views| |]; try apply confined_print.
  specialize (Hkeys views eq_refl). rewrite Forall_forall in Hkeys.
  destruct projects_json as [rs| |]; try apply confined_print.
  set (roots := batch_roots STAGE_ONLY (Loaded rs)).
  apply (confined_bind roots (fun projects =>
    ∀ k target, projects !! k = Some target →
                ∃ r, r ∈ rs ∧ project_path r = Some target)).
  { apply confined_query. }
  { intros w projects w'. unfold query. intros [= Hb _] k target.
    by apply built_projects_come_from_records. }
  intros projects Hprojects.
  apply confined_seq; [|intros _; apply confined_print].
  apply confined_for_each. intros v Hv.
  assert (∀ target, (∃ k, projects !! k = Some target) →
            confined roots (deploy_latest_frames STAGE_ONLY v target)) as Hd.
  { intros target [k Hk].
    apply (confined_weaken
             (OUTPUT_BASE_DIR :: if STAGE_ONLY then [] else [target]));
      [|by apply confined_deploy, Hkeys].
    unfold roots, batch_roots. destruct STAGE_ONLY; [done|].
    intros S HS. apply elem_of_cons in HS as [->|HS];
      [apply list_elem_of_here|].
    apply list_elem_of_further. apply list_elem_of_singleton in HS as ->.
    destruct (Hprojects k target Hk) as (r & Hr & Hp).
    apply list_elem_of_omap. by exists r. }
  unfold deploy_view. cbv zeta.
  destruct (projects !! build_view_key v) as [target|] eqn:E1; [eauto|].
  destruct (projects !! canonicalize (build_view_key v)) as [target|] eqn:E2;
    [eauto|apply confined_print].
Qed.

(** X8.  A batch whose view keys are not absolute and have no component
    [..] changes, however it ends, nothing outside the output root and the
    project folders of the records in [projects.json]; a stage-only batch
    of that kind changes nothing outside the output root, and a batch whose
    configuration cannot be loaded changes nothing at all outside it
    either.  (A key that is absolute or climbs with [..] takes the staging
    wherever it leads.) *)
Theorem batch_stays_in_its_folders (STAGE_ONLY : bool)
  (views_json : config (list view))
  (projects_json : config (list project_record)) (w : world) (q : path) :
  (∀ views, views_json = Loaded views →
     Forall (fun v => stays_below (build_view_key v) = true) views) →
  outside (batch_roots STAGE_ONLY projects_json) q →
  stat q (root (snd (main STAGE_ONLY views_json projects_json w)))
  = stat q (root w).
Proof.
  intros Hkeys Hq.
  destruct (main STAGE_ONLY views_json projects_json w) as [r w'] eqn:Hrun.
  destruct (confined_main _ _ _ Hkeys _ _ _ Hrun) as (_ & _ & Hf).
  by apply Hf.
Qed.

End OrchestratorMore.

Lemma views_meet_projects_by_key_witness :
  deploy_view string sample_canonicalize sample_canonicalize ["out"] true
    {[ "alpha" := ["p2"] ]} " ALPHA"
  = deploy_latest_frames string sample_canonicalize sample_canonicalize
      ["out"] true " ALPHA" ["p2"].
Proof.
  destruct (views_meet_projects_by_key string sample_canonicalize
              sample_canonicalize ["out"] sample_projects
              {[ "alpha" := ["p2"] ]} true " ALPHA") as [H _].
  - vm_compute. reflexivity.
  - exact H.
Defined.

Lemma stage_without_frames_witness :
  ∃ fs',
    stage_from_latest_run ["out"; "deska"] sample_no_frames_world
    = (Ok None, World fs' 100 [ELatestSource "run"; EStaging; ENoPng])
    ∧ is_dir fs' ["out"; "deska"; "staging"] = true
    ∧ names_of fs' ["out"; "deska"; "staging"] = [].
Proof.
  destruct (stage_without_frames ["out"; "deska"] sample_no_frames_world 0
              [("run", Dir 5 [("notes.txt", File 4 [])])] "run")
    as (fs' & Hrun & Hdir & Hnames & _);
    try (vm_compute; reflexivity).
  exists fs'. split; [exact Hrun|]. split; [exact Hdir|]. exact Hnames.
Defined.

Lemma stage_blocked_by_file_witness :
  stage_from_latest_run ["out"; "deska"] sample_blocked_world
  = (Raise FileExistsError,
     World (root sample_blocked_world) 100 [ELatestSource "run"]).
Proof.
  apply (stage_blocked_by_file ["out"; "deska"] sample_blocked_world 0
           [("staging", File 1 []); ("run", Dir 5 [("a.png", File 4 png_a)])]
           "run"); vm_compute; reflexivity.
Defined.

Lemma deploy_without_materials_witness :
  ∃ w1,
    deploy_latest_frames string sample_canonicalize sample_canonicalize
      ["out"] false "DeskA" ["p3"] sample_world
    = (Ok tt, World (root w1) 100
                [EDeploying "deska"; ELatestSource "aa_newest"; EStaging;
                 EStaged 3; ENoMaterials ["p3"]]).
Proof.
  eexists.
  apply (deploy_without_materials string sample_canonicalize
           sample_canonicalize ["out"] "DeskA" ["p3"] sample_world
           ["out"; "deska"] ["out"; "deska"; "staging"]
           (snd (stage_from_latest_run ["out"; "deska"]
                   (World sample_root 100 [EDeploying "deska"]))));
    vm_compute; reflexivity.
Defined.

Lemma batch_stays_in_its_folders_witness :
  stat ["p1"; "project.json"]
    (root (snd (main string sample_canonicalize sample_canonicalize ["out"]
                  true (Loaded ["DeskA"]) (Loaded sample_desk_projects)
                  sample_world)))
  = stat ["p1"; "project.json"] sample_root.
Proof.
  apply (batch_stays_in_its_folders string sample_canonicalize
           sample_canonicalize ["out"] true (Loaded ["DeskA"])
           (Loaded sample_desk_projects) sample_world ["p1"; "project.json"]).
  - intros views [= <-]. constructor; [vm_compute; reflexivity|constructor].
  - repeat constructor; intros H; apply prefix_cons_inv_1 in H; discriminate.
Defined.

(** * Further facts about staging *)

Lemma stat_below d n rest fs m es :
  stat d fs = Some (Dir m es) →
  stat (d ++ n :: rest) fs = assoc n es ≫= stat rest.
Proof.
  intros H. rewrite stat_app, H. simpl. by destruct (assoc n es).
Qed.

(** A staging run up to the manifest: under the conditions that let the
    frames through, the call comes down to its manifest step, run on a
    filesystem that has the frames in place and is otherwise as before,
    the staging folder apart, which now exists. *)
Lemma stage_run_spec (P : path) (w : world) m es latest :
  let srcs := sorted (glob (root w) (P </> latest) "" ".png") in
  stat P (root w) = Some (Dir m es) →
  py_max (all_runs (root w) P (map fst es))
         (fun d => st_mtime (root w) (P </> d)) = Ok latest →
  is_file (root w) (P </> "staging") = false →
  srcs ≠ [] →
  forallb (fun name => is_file (root w) (P </> latest </> name)) srcs = true →
  forallb (fun i => negb (is_dir (root w) (P </> "staging" </> frame_name i)))
          (seq 0 (length srcs)) = true →
  ∃ fs3 ms ses3,
    stage_from_latest_run P w =
      (let* present := reads (fun fs =>
           exists_ fs (P </> latest </> "manifest.json")) in
       (if present then
          update (fun _ => copy2 (P </> latest </> "manifest.json")
                             (P </> "staging" </> "current_manifest.json"))
        else ret tt) ;;
       ret (Some (P </> "staging")))
      (World fs3 (now w)
         (out w ++ [ELatestSource latest; EStaging; EStaged (length srcs)]))
    ∧ latest ≠ "staging"
    ∧ stat (P </> "staging") fs3 = Some (Dir ms ses3)
    ∧ (∀ i name, srcs !! i = Some name →
         ∃ d, read_bytes (root w) (P </> latest </> name) = Ok d
              ∧ stat (P </> "staging" </> frame_name i) fs3
                = Some (File (now w) d))
    ∧ (∀ n rest, (∀ k, (k < length srcs)%nat → n ≠ frame_name k) →
         stat (P </> "staging" ++ n :: rest) fs3
         = stat (P </> "staging" ++ n :: rest) (root w))
    ∧ (∀ q, ¬ (P </> "staging") `prefix_of` q →
            ¬ q `prefix_of` (P </> "staging") →
            stat q fs3 = stat q (root w)).
Proof.
  intros srcs HP Hmax Hstg Hne Hfiles Hfree.
  assert (latest ≠ "staging") as Hl.
  { apply py_max_elem, all_runs_spec in Hmax. tauto. }
  destruct (mkdir_child (now w) P "staging" (root w) m es HP Hstg)
    as (fs1 & ms & ses & Hmk & HS1 & Hfr1).
  assert (∀ r, stat (P </> latest ++ r) fs1 = stat (P </> latest ++ r) (root w))
    as Hrun1.
  { intros r. apply Hfr1. by apply run_outside_staging. }
  assert (glob fs1 (P </> latest) "" ".png"
          = glob (root w) (P </> latest) "" ".png") as Hglob.
  { apply glob_stat_eq. specialize (Hrun1 []). by rewrite app_nil_r in Hrun1. }
  set (w2 := World fs1 (now w) ((out w ++ [ELatestSource latest]) ++ [EStaging])).
  destruct (stage_loop_spec P latest srcs Hl 0 w2 ms ses) as
    (w3 & ses3 & Hloop & Hnow & Hout & HS3 & Hnew & Hold & Hfr3).
  { done. }
  { intros name Hname. unfold is_file. simpl.
    rewrite (Hrun1 [name]).
    rewrite forallb_forall in Hfiles. apply Hfiles.
    by apply list_elem_of_In. }
  { intros k Hk. unfold is_dir. simpl. rewrite Hfr1 by apply prefix_snoc_not.
    rewrite forallb_forall in Hfree.
    specialize (Hfree k). rewrite negb_true_iff in Hfree. apply Hfree.
    apply in_seq. lia. }
  assert (∃ s0 ss, srcs = s0 :: ss) as (s0 & ss & Hs).
  { destruct srcs; [done|eauto]. }
  exists (root w3), ms, ses3.
  split; [|split; [done|split; [done|split; [|split]]]].
  - unfold stage_from_latest_run.
    rewrite (bind_query_Ok _ _ w (map fst es)) by (unfold iterdir; by rewrite HP).
    rewrite bind_reads.
    destruct (all_runs (root w) P (map fst es)) as [|r0 rs] eqn:Hruns;
      [done|].
    rewrite (bind_query_Ok _ _ w latest) by exact Hmax.
    cbv zeta. rewrite bind_print.
    rewrite (bind_update_Ok _ _ _ fs1) by exact Hmk.
    rewrite bind_print, bind_reads. cbn [root now out]. rewrite Hglob.
    fold srcs. rewrite Hs. cbv iota. rewrite <- Hs.
    unfold stage_frames. rewrite (bind_Ok _ _ _ tt w3) by exact Hloop.
    rewrite bind_print, Hnow, Hout. unfold w2. cbn [now out].
    by rewrite <- !app_assoc.
  - intros i name Hi. destruct (Hnew i name Hi) as (d & Hd & Ha).
    exists d. split.
    + revert Hd. unfold read_bytes. simpl. by rewrite (Hrun1 [name]).
    + by rewrite (stat_child _ _ _ _ _ HS3).
  - intros n rest Hn.
    rewrite (stat_below _ _ _ _ _ _ HS3), Hold by done.
    rewrite <- (stat_below _ _ _ _ _ _ HS1). apply Hfr1.
    intros [k Hk]. rewrite <- app_assoc in Hk.
    apply (f_equal length) in Hk. rewrite !length_app in Hk. simpl in Hk. lia.
  - intros q H1 H2. rewrite Hfr3 by done. simpl. apply Hfr1.
    intros H. apply H2. done.
Qed.

(** X14.  When the latest run holds a regular file [manifest.json],
    a staging run that gets its frames through also copies the manifest to
    [current_manifest.json] in the staging folder (or, when that name is a
    directory there, to [manifest.json] inside it), with the contents and
    the modification time of the original; the frames stay as staged and
    nothing outside the staging folder changes. *)
Theorem manifest_is_staged_with_frames (P : path) (w : world) m es latest
  (mm : Z) (md : bytes) :
  let srcs := sorted (glob (root w) (P </> latest) "" ".png") in
  let staged_manifest :=
    if is_dir (root w) (P </> "staging" </> "current_manifest.json")
    then P </> "staging" </> "current_manifest.json" </> "manifest.json"
    else P </> "staging" </> "current_manifest.json" in
  stat P (root w) = Some (Dir m es) →
  py_max (all_runs (root w) P (map fst es))
         (fun d => st_mtime (root w) (P </> d)) = Ok latest →
  is_file (root w) (P </> "staging") = false →
  srcs ≠ [] →
  forallb (fun name => is_file (root w) (P </> latest </> name)) srcs = true →
  forallb (fun i => negb (is_dir (root w) (P </> "staging" </> frame_name i)))
          (seq 0 (length srcs)) = true →
  stat (P </> latest </> "manifest.json") (root w) = Some (File mm md) →
  is_dir (root w) staged_manifest = false →
  ∃ w',
    stage_from_latest_run P w = (Ok (Some (P </> "staging")), w')
    ∧ stat staged_manifest (root w') = Some (File mm md)
    ∧ (∀ i name, srcs !! i = Some name →
         ∃ d, read_bytes (root w) (P </> latest </> name) = Ok d
              ∧ stat (P </> "staging" </> frame_name i) (root w')
                = Some (File (now w) d))
    ∧ (∀ q, ¬ (P </> "staging") `prefix_of` q →
            ¬ q `prefix_of` (P </> "staging") →
            stat q (root w') = stat q (root w)).
Proof.
  intros srcs staged_manifest HP Hmax Hstg Hne Hfiles Hfree Hman Hfreem.
  destruct (stage_run_spec P w m es latest HP Hmax Hstg Hne Hfiles Hfree)
    as (fs3 & ms & ses3 & Hstep & Hl & HS3 & Hframes & Hold & Hfr).
  fold srcs in Hstep, Hframes, Hold.
  set (S := P </> "staging") in *.
  set (cm := "current_manifest.json") in *.
  set (src := P </> latest </> "manifest.json") in *.
  assert (stat src fs3 = Some (File mm md)) as Hsrc3.
  { rewrite Hfr; [done|..];
      by apply (run_outside_staging P latest ["manifest.json"]). }
  assert (∀ rest, stat (S ++ cm :: rest) fs3 = stat (S ++ cm :: rest) (root w))
    as Hcm.
  { intros rest. apply Hold. intros k _ E.
    by apply (frame_name_not_manifest k). }
  assert (is_dir fs3 (S </> cm) = is_dir (root w) (S </> cm)) as Hdir.
  { unfold is_dir. by rewrite (Hcm []). }
  assert (∃ rest, staged_manifest = S ++ cm :: rest) as (rest & Hsm).
  { unfold staged_manifest. destruct (is_dir (root w) (S </> cm)).
    - exists ["manifest.json"]. by rewrite <- app_assoc.
    - by exists []. }
  assert (src ≠ staged_manifest) as Hdiff.
  { rewrite Hsm. unfold src, S. rewrite <- !(app_assoc P). simpl.
    intros E. apply app_inv_head in E. congruence. }
  assert (∃ fs4, put staged_manifest (File mm md) fs3 = Ok fs4
                 ∧ stat staged_manifest fs4 = Some (File mm md))
    as (fs4 & Hput & Hnew).
  { unfold staged_manifest in *. unfold is_dir in Hfreem, Hdir.
    destruct (is_dir (root w) (S </> cm)) eqn:Hd.
    - unfold is_dir in Hd. rewrite <- (Hcm []) in Hd.
      destruct (stat (S </> cm) fs3) as [[|md' mes]|] eqn:Hst; try done.
      destruct (put_child (S </> cm) "manifest.json" (File mm md) fs3 md' mes Hst)
        as (fs4 & Hput & Hst4).
      exists fs4. split; [done|].
      rewrite (stat_child _ _ _ _ _ Hst4). apply assoc_upsert_eq.
    - destruct (put_child S cm (File mm md) fs3 ms ses3 HS3)
        as (fs4 & Hput & Hst4).
      exists fs4. split; [done|].
      rewrite (stat_child _ _ _ _ _ Hst4). apply assoc_upsert_eq. }
  assert (copy2 src (S </> cm) fs3 = Ok fs4) as Hcopy.
  { unfold copy2. rewrite Hdir.
    assert (basename src = "manifest.json") as ->.
    { unfold src. apply basename_child. }
    fold staged_manifest. rewrite decide_False by done.
    rewrite Hsrc3.
    assert (stat staged_manifest fs3 = stat staged_manifest (root w)) as ->.
    { rewrite Hsm. apply Hcm. }
    unfold is_dir in Hfreem.
    by destruct (stat staged_manifest (root w)) as [[|]|]. }
  exists (World fs4 (now w)
            (out w ++ [ELatestSource latest; EStaging; EStaged (length srcs)])).
  split; [|split; [done|split]].
  - rewrite Hstep, bind_reads. cbn [root now out].
    unfold exists_. fold src. rewrite Hsrc3.
    by rewrite (bind_update_Ok _ _ _ fs4) by exact Hcopy.
  - intros i name Hi. destruct (Hframes i name Hi) as (d & Hd & Hst).
    exists d. split; [done|]. cbn [root]. rewrite <- Hst.
    apply (stat_put_unrelated _ _ _ _ _ Hput); rewrite Hsm.
    + apply (siblings_unrelated S _ _ rest []).
      intros E. by apply (frame_name_not_manifest i).
    + apply (siblings_unrelated S _ _ [] rest).
      apply frame_name_not_manifest.
  - intros q H1 H2. cbn [root]. rewrite <- Hfr by done.
    apply (stat_put_unrelated _ _ _ _ _ Hput); rewrite Hsm.
    + intros [k Hk]. apply H1. exists (cm :: rest ++ k).
      rewrite Hk. by rewrite <- !app_assoc.
    + intros [k Hk]. 
      destruct (prefix_weak_total q S (S ++ cm :: rest)) as [H|H].
      * by exists k.
      * by apply prefix_app_r.
      * done.
      * done.
Qed.

(** X15.  When the latest run holds no [manifest.json], staging succeeds
    and leaves [current_manifest.json] of the staging folder as it was: a
    manifest staged from an earlier run stays there beside the new
    frames. *)
Theorem stale_manifest_survives (P : path) (w : world) m es latest :
  let srcs := sorted (glob (root w) (P </> latest) "" ".png") in
  stat P (root w) = Some (Dir m es) →
  py_max (all_runs (root w) P (map fst es))
         (fun d => st_mtime (root w) (P </> d)) = Ok latest →
  is_file (root w) (P </> "staging") = false →
  srcs ≠ [] →
  forallb (fun name => is_file (root w) (P </> latest </> name)) srcs = true →
  forallb (fun i => negb (is_dir (root w) (P </> "staging" </> frame_name i)))
          (seq 0 (length srcs)) = true →
  exists_ (root w) (P </> latest </> "manifest.json") = false →
  ∃ w',
    stage_from_latest_run P w = (Ok (Some (P </> "staging")), w')
    ∧ stat (P </> "staging" </> "current_manifest.json") (root w')
      = stat (P </> "staging" </> "current_manifest.json") (root w)
    ∧ (∀ i name, srcs !! i = Some name →
         ∃ d, read_bytes (root w) (P </> latest </> name) = Ok d
              ∧ stat (P </> "staging" </> frame_name i) (root w')
                = Some (File (now w) d)).
Proof.
  intros srcs HP Hmax Hstg Hne Hfiles Hfree Hman.
  destruct (stage_run_spec P w m es latest HP Hmax Hstg Hne Hfiles Hfree)
    as (fs3 & ms & ses3 & Hstep & Hl & HS3 & Hframes & Hold & Hfr).
  fold srcs in Hstep, Hframes, Hold.
  eexists. split; [|split].
  - rewrite Hstep, bind_reads. cbn [root now out].
    unfold exists_ in *. rewrite Hfr;
      [|by apply (run_outside_staging P latest ["manifest.json"])..].
    destruct (stat (P </> latest </> "manifest.json") (root w)); [done|].
    reflexivity.
  - cbn [root]. apply (Hold "current_manifest.json" []).
    intros k _ E. by apply (frame_name_not_manifest k).
  - done.
Qed.

Lemma manifest_is_staged_with_frames_witness :
  ∃ w',
    stage_from_latest_run ["out"; "deska"] sample_world
    = (Ok (Some ["out"; "deska"; "staging"]), w')
    ∧ stat ["out"; "deska"; "staging"; "current_manifest.json"] (root w')
      = Some (File 29 manifest_doc)
    ∧ (∀ i name, ["a.png"; "b.png"; "c.png"] !! i = Some name →
         ∃ d, read_bytes sample_root (["out"; "deska"; "aa_newest"] </> name)
              = Ok d
              ∧ stat (["out"; "deska"; "staging"] </> frame_name i) (root w')
                = Some (File 100 d))
    ∧ (∀ q, ¬ ["out"; "deska"; "staging"] `prefix_of` q →
            ¬ q `prefix_of` ["out"; "deska"; "staging"] →
            stat q (root w') = stat q sample_root).
Proof.
  apply (manifest_is_staged_with_frames ["out"; "deska"] sample_world
           0 sample_runs "aa_newest" 29 manifest_doc);
    vm_compute; (reflexivity || discriminate).
Defined.

Lemma stale_manifest_survives_witness :
  ∃ w',
    stage_from_latest_run ["out"; "deska"] sample_stale_manifest_world
    = (Ok (Some ["out"; "deska"; "staging"]), w')
    ∧ stat ["out"; "deska"; "staging"; "current_manifest.json"] (root w')
      = Some (File 7 manifest_doc)
    ∧ (∀ i name, ["b.png"] !! i = Some name →
         ∃ d, read_bytes (root sample_stale_manifest_world)
                (["out"; "deska"; "run"] </> name) = Ok d
              ∧ stat (["out"; "deska"; "staging"] </> frame_name i) (root w')
                = Some (File 100 d)).
Proof.
  apply (stale_manifest_survives ["out"; "deska"] sample_stale_manifest_world
           0 [ ("staging", Dir 8 [("frame_000.png", File 7 png_x);
                                  ("current_manifest.json",
                                   File 7 manifest_doc)]);
               ("run", Dir 10 [("b.png", File 9 png_b)]) ] "run");
    vm_compute; (reflexivity || discriminate).
Defined.

(** * What staging leaves of the parent directory *)

Lemma keeps_siblings_same {A} P x (c : M A) :
  (∀ w r w', c w = (r, w') → root w' = root w) → keeps_siblings P x c.
Proof.
  intros H w r w' m es E HP. rewrite (H _ _ _ E). by exists es.
Qed.

Lemma keeps_siblings_ret {A} P x (a : A) : keeps_siblings P x (ret a).
Proof. apply keeps_siblings_same. by intros w r w' [= _ <-]. Qed.

Lemma keeps_siblings_print P x e : keeps_siblings P x (print e).
Proof. apply keeps_siblings_same. by intros w r w' [= _ <-]. Qed.

Lemma keeps_siblings_reads {A} P x (f : node → A) :
  keeps_siblings P x (reads f).
Proof. apply keeps_siblings_same. by intros w r w' [= _ <-]. Qed.

Lemma keeps_siblings_query {A} P x (f : node → outcome A) :
  keeps_siblings P x (query f).
Proof. apply keeps_siblings_same. by intros w r w' [= _ <-]. Qed.

Lemma keeps_siblings_bind {A B} P x (c : M A) (k : A → M B) :
  keeps_siblings P x c → (∀ a, keeps_siblings P x (k a)) →
  keeps_siblings P x (bind c k).
Proof.
  intros Hc Hk w r w' m es. unfold bind.
  destruct (c w) as [[a|e] w1] eqn:E.
  - intros H HP. destruct (Hc _ _ _ _ _ E HP) as (es1 & HP1 & Hn1).
    destruct (Hk a _ _ _ _ _ H HP1) as (es2 & HP2 & Hn2).
    exists es2. split; [done|]. congruence.
  - intros [= <- <-]. by apply (Hc _ _ _ _ _ E).
Qed.

Lemma keeps_siblings_for_each {A} P x (xs : list A) (body : A → M unit) :
  (∀ a, keeps_siblings P x (body a)) → keeps_siblings P x (for_each xs body).
Proof.
  intros Hb. induction xs as [|a xs IH]; simpl.
  - apply keeps_siblings_ret.
  - apply keeps_siblings_bind; [apply Hb|]. intros _. apply IH.
Qed.

(** A write at or below the entry [x] of [P] keeps the siblings of [x]. *)
Lemma keeps_siblings_update P x (f : Z → node → outcome node) :
  (∀ t fs fs', f t fs = Ok fs' →
     fs' = fs ∨ ∃ rest v, put (P ++ x :: rest) v fs = Ok fs') →
  keeps_siblings P x (update f).
Proof.
  intros Hf w r w' m es. unfold update.
  destruct (f (now w) (root w)) as [fs'|e] eqn:E.
  - intros [= <- <-] HP. simpl.
    destruct (Hf _ _ _ E) as [->|(rest & v & Hput)]; [by exists es|].
    destruct (put_below _ _ _ _ _ _ _ _ HP Hput) as [c Hc].
    exists (upsert x c es). split; [done|].
    rewrite names_upsert. destruct (assoc x es); [done|].
    rewrite filter_app, filter_cons_False, filter_nil, app_nil_r; [done|].
    rewrite String.eqb_refl. simpl. tauto.
  - intros [= <- <-] HP. by exists es.
Qed.

Lemma keeps_siblings_stage_frames P L srcs :
  keeps_siblings P "staging" (stage_frames L (P </> "staging") srcs).
Proof.
  unfold stage_frames. apply keeps_siblings_for_each. intros [i frame].
  apply keeps_siblings_bind; [apply keeps_siblings_query|]. intros data.
  apply keeps_siblings_update. intros t fs fs' H. right.
  exists [frame_name i], (File t data).
  unfold write_bytes in H. rewrite <- (app_assoc P) in H. simpl in H.
  by destruct (stat _ fs) as [[|]|].
Qed.

Lemma keeps_siblings_mkdir P x :
  keeps_siblings P x (update (fun t => mkdir_exist_ok t (P </> x))).
Proof.
  apply keeps_siblings_update. intros t fs fs' H.
  unfold mkdir_exist_ok in H.
  destruct (stat (P </> x) fs) as [[|]|]; try done.
  - left. by injection H.
  - right. exists [], (Dir t []). by rewrite <- H.
Qed.

Lemma keeps_siblings_copy2 P x src y :
  keeps_siblings P x (update (fun _ => copy2 src (P </> x </> y))).
Proof.
  apply keeps_siblings_update. intros t fs fs' H. right.
  destruct (copy2_Ok _ _ _ _ H) as (dst' & m & d & _ & [->| ->] & Hput).
  - exists [y], (File m d). by rewrite <- Hput, <- (app_assoc P).
  - exists [y; basename src], (File m d).
    rewrite <- Hput. by rewrite <- !(app_assoc P).
Qed.

(** Staging keeps the siblings of the staging folder, however it ends. *)
Lemma keeps_siblings_stage P :
  keeps_siblings P "staging" (stage_from_latest_run P).
Proof.
  unfold stage_from_latest_run.
  repeat first
    [ apply keeps_siblings_ret
    | apply keeps_siblings_print
    | apply keeps_siblings_reads
    | apply keeps_siblings_query
    | apply keeps_siblings_stage_frames
    | apply keeps_siblings_mkdir
    | apply keeps_siblings_copy2
    | apply keeps_siblings_bind; [|intros ?]
    | match goal with
      | |- keeps_siblings _ _ (match ?x with _ => _ end) => destruct x
      end ].
Qed.

Lemma all_runs_siblings fs P l :
  all_runs fs P (filter (fun d => negb (String.eqb d "staging")) l)
  = all_runs fs P l.
Proof.
  unfold all_runs. induction l as [|d l IH]; [done|].
  destruct (String.eqb d "staging") eqn:E.
  - rewrite filter_cons_False by (rewrite E; simpl; tauto).
    rewrite (filter_cons_False _ d l); [done|].
    rewrite E, andb_false_r. simpl. tauto.
  - rewrite filter_cons_True by (rewrite E; simpl; tauto).
    destruct (is_dir fs (P </> d)) eqn:Hd.
    + rewrite !filter_cons_True, IH; [done|..]; rewrite ?Hd, ?E; simpl; tauto.
    + rewrite !filter_cons_False, IH; [done|..]; rewrite ?Hd, ?E; simpl; tauto.
Qed.

Lemma all_runs_ext fs fs' P l :
  (∀ d, d ≠ "staging" → is_dir fs' (P </> d) = is_dir fs (P </> d)) →
  all_runs fs' P l = all_runs fs P l.
Proof.
  intros H. unfold all_runs. induction l as [|d l IH]; [done|].
  destruct (String.eqb d "staging") eqn:E.
  - rewrite !filter_cons_False, IH; [done|..];
      rewrite E, andb_false_r; simpl; tauto.
  - assert (is_dir fs' (P </> d) = is_dir fs (P </> d)) as Hd'.
    { apply H. intros ->. by rewrite String.eqb_refl in E. }
    destruct (is_dir fs (P </> d)) eqn:Hd.
    + rewrite !filter_cons_True, IH; [done|..];
        rewrite ?Hd', ?Hd, ?E; simpl; tauto.
    + rewrite !filter_cons_False, IH; [done|..];
        rewrite ?Hd', ?Hd, ?E; simpl; tauto.
Qed.

Lemma max_from_ext {A} (key key' : A → outcome Z) best kbest xs :
  (∀ x, x ∈ xs → key' x = key x) →
  max_from key' best kbest xs = max_from key best kbest xs.
Proof.
  revert best kbest. induction xs as [|x xs IH]; intros best kbest H; [done|].
  simpl. rewrite (H x) by apply list_elem_of_here.
  destruct (key x) as [k|e]; [|done].
  destruct (kbest <? k)%Z; apply IH; intros y Hy; apply H;
    by apply list_elem_of_further.
Qed.

Lemma py_max_ext {A} (key key' : A → outcome Z) xs :
  (∀ x, x ∈ xs → key' x = key x) → py_max xs key' = py_max xs key.
Proof.
  destruct xs as [|x xs]; [done|]. intros H. simpl.
  rewrite (H x) by apply list_elem_of_here.
  destruct (key x) as [k|e]; [|done].
  apply max_from_ext. intros y Hy. apply H. by apply list_elem_of_further.
Qed.

(** X16.  Staging never changes which run a later call selects: however
    a call ends, the parent directory still lists the same run folders in
    the same order, the staging folder is not among them, every run folder
    and everything in it is as before, and the latest run by modification
    time is the same one. *)
Theorem staging_keeps_the_selection (P : path) (w : world) r w' m es :
  stage_from_latest_run P w = (r, w') →
  stat P (root w) = Some (Dir m es) →
  ∃ es' : list (string * node),
    iterdir (root w') P = Ok (map fst es')
    ∧ all_runs (root w') P (map fst es') = all_runs (root w) P (map fst es)
    ∧ ("staging" ∉ all_runs (root w') P (map fst es'))
    ∧ py_max (all_runs (root w') P (map fst es'))
             (fun d => st_mtime (root w') (P </> d))
      = py_max (all_runs (root w) P (map fst es))
               (fun d => st_mtime (root w) (P </> d))
    ∧ (∀ d rest, d ≠ "staging" →
         stat (P </> d ++ rest) (root w') = stat (P </> d ++ rest) (root w)).
Proof.
  intros Hrun HP.
  destruct (keeps_siblings_stage P _ _ _ _ _ Hrun HP) as (es' & HP' & Hnames).
  destruct (writes_under_stage P _ _ _ Hrun) as (_ & _ & Hframe & _).
  assert (∀ d rest, d ≠ "staging" →
            stat (P </> d ++ rest) (root w') = stat (P </> d ++ rest) (root w))
    as Hruns.
  { intros d rest Hd. apply Hframe; by apply run_outside_staging. }
  assert (all_runs (root w') P (map fst es') = all_runs (root w) P (map fst es))
    as Hall.
  { rewrite <- (all_runs_siblings (root w')), Hnames, all_runs_siblings.
    apply all_runs_ext. intros d Hd. unfold is_dir.
    specialize (Hruns d [] Hd). rewrite !app_nil_r in Hruns. by rewrite Hruns. }
  exists es'. split; [|split; [done|split; [|split; [|done]]]].
  - unfold iterdir. by rewrite HP'.
  - intros H. apply all_runs_spec in H. tauto.
  - rewrite Hall. apply py_max_ext. intros d Hd.
    apply all_runs_spec in Hd as (_ & _ & Hd). unfold st_mtime.
    specialize (Hruns d [] Hd). rewrite !app_nil_r in Hruns. by rewrite Hruns.
Qed.

Lemma staging_keeps_the_selection_witness :
  ∃ es' : list (string * node),
    iterdir (root (snd (stage_from_latest_run ["out"; "deska"] sample_world)))
      ["out"; "deska"] = Ok (map fst es')
    ∧ all_runs (root (snd (stage_from_latest_run ["out"; "deska"] sample_world)))
        ["out"; "deska"] (map fst es')
      = ["zz_oldest"; "aa_newest"; "mm_middle"]
    ∧ py_max (all_runs
                (root (snd (stage_from_latest_run ["out"; "deska"] sample_world)))
                ["out"; "deska"] (map fst es'))
             (fun d => st_mtime
                (root (snd (stage_from_latest_run ["out"; "deska"] sample_world)))
                (["out"; "deska"] </> d))
      = Ok "aa_newest".
Proof.
  destruct (staging_keeps_the_selection ["out"; "deska"] sample_world
              (fst (stage_from_latest_run ["out"; "deska"] sample_world))
              (snd (stage_from_latest_run ["out"; "deska"] sample_world))
              0 sample_runs)
    as (es' & H1 & H2 & _ & H3 & _);
    [vm_compute; reflexivity..|].
  exists es'. split; [exact H1|]. split; [exact H2|exact H3].
Defined.

(** * Facts about patterns *)

Lemma string_prefix_spec s1 s2 :
  String.prefix s1 s2 = true ↔ ∃ t, s2 = s1 +:+ t.
Proof.
  revert s2. induction s1 as [|a s1 IH]; intros s2.
  - split; [intros _; by exists s2|by destruct s2].
  - destruct s2 as [|b s2]; simpl.
    + split; [done|]. by intros [t Ht].
    + destruct (Ascii.ascii_dec a b) as [->|Hne].
      * rewrite IH. split; intros [t Ht]; exists t.
        -- cbv [String.append]. fold String.append. by rewrite Ht.
        -- cbv [String.append] in Ht. fold String.append in Ht.
           by injection Ht.
      * split; [done|]. intros [t Ht].
        cbv [String.append] in Ht. fold String.append in Ht. congruence.
Qed.

Lemma string_app_nil_r s : s +:+ "" = s.
Proof.
  induction s as [|a s IH]; cbv [String.append]; fold String.append;
    [done|by rewrite IH].
Qed.







(** * Further facts about the daemon *)

(** [needle in hay] holds exactly when [hay] has [needle] somewhere. *)
Lemma contains_spec needle hay :
  contains needle hay = true ↔ ∃ a b, hay = a +:+ needle +:+ b.
Proof.
  induction hay as [|c hay IH]; cbn [contains].
  - rewrite orb_false_r, string_prefix_spec. split.
    + intros [t Ht]. by exists "", t.
    + intros (a & b & H). destruct a as [|x a]; [by exists b|].
      cbv [String.append] in H. fold String.append in H. done.
  - rewrite orb_true_iff, string_prefix_spec, IH. split.
    + intros [[t Ht]|(a & b & ->)].
      * by exists "", t.
      * by exists (String c a), b.
    + intros (a & b & H). destruct a as [|x a].
      * left. by exists b.
      * right. cbv [String.append] in H. fold String.append in H.
        injection H as -> ->. by exists a, b.
Qed.

Section DaemonMore.

Variable STATIC_DIR : path.
Variable DEPLOY_SCRIPT_NAME : string.
Variable lower : string -> string.

Local Abbreviation is_deploy_running := (is_deploy_running DEPLOY_SCRIPT_NAME lower).
Local Abbreviation pick_random_static := (pick_random_static STATIC_DIR).
Local Abbreviation static_pool := (static_pool STATIC_DIR).
Local Abbreviation tick := (tick STATIC_DIR DEPLOY_SCRIPT_NAME lower).
Local Abbreviation ticks := (ticks STATIC_DIR DEPLOY_SCRIPT_NAME lower).
Local Abbreviation daemon_loop := (daemon_loop STATIC_DIR DEPLOY_SCRIPT_NAME lower).

(** X9.  The watcher reports a deployment exactly when the lower-cased
    task list has the lower-cased deploy script name somewhere in it, or
    has both "python" and "deploy-wallpaper.py" somewhere in it.  With an
    empty script name it reports one whatever the task list says. *)
Theorem deploy_is_seen_by_its_name (output : string) :
  (is_deploy_running (Ok output) = true ↔
   (∃ a b, lower output = a +:+ lower DEPLOY_SCRIPT_NAME +:+ b)
   ∨ ((∃ a b, lower output = a +:+ "python" +:+ b)
      ∧ (∃ a b, lower output = a +:+ "deploy-wallpaper.py" +:+ b)))
  ∧ (lower DEPLOY_SCRIPT_NAME = "" → is_deploy_running (Ok output) = true).
Proof.
  assert (is_deploy_running (Ok output) = true ↔
   (∃ a b, lower output = a +:+ lower DEPLOY_SCRIPT_NAME +:+ b)
   ∨ ((∃ a b, lower output = a +:+ "python" +:+ b)
      ∧ (∃ a b, lower output = a +:+ "deploy-wallpaper.py" +:+ b))) as H.
  { unfold is_deploy_running. cbv zeta.
    by rewrite orb_true_iff, andb_true_iff, !contains_spec. }
  split; [done|]. intros Hname. apply H. left. rewrite Hname.
  by exists "", (lower output).
Qed.

(** What one tick does, by cases. *)
Lemma tick_cases obs s :
  (tick obs s = (s, [Sleep CHECK_INTERVAL]))
  ∨ (s ≠ Static ∧
     tick obs s = (s, [PrintDetected; PrintNoStaticImages; Sleep CHECK_INTERVAL]))
  ∨ (s ≠ Static ∧ ∃ img,
       tick obs s
       = (Static, [PrintDetected; SetStaticWallpaper img; Sleep CHECK_INTERVAL]))
  ∨ (s ≠ Satellite ∧
     tick obs s
     = (Satellite,
        [PrintRestoring; RestoreWallpaperEngine; Sleep CHECK_INTERVAL])).
Proof.
  unfold tick. destruct (is_deploy_running (tasklist obs)); simpl.
  - destruct s; simpl; auto;
      destruct (pick_random_static (files obs) (draw obs));
      [right; right; left|right; left|right; right; left|right; left];
      (split; [done|]); eauto.
  - destruct s; simpl; auto; right; right; right; done.
Qed.

Lemma ticks_cons obs rest s :
  ticks (obs :: rest) s
  = (fst (ticks rest (fst (tick obs s))),
     snd (tick obs s) ++ snd (ticks rest (fst (tick obs s)))).
Proof.
  simpl. destruct (tick obs s) as [s1 t1]. simpl.
  by destruct (ticks rest s1).
Qed.

(** X10.  The state the daemon holds after any number of ticks is the one
    its last wallpaper call of the run set, or the state it started from
    when it made none; it is still unset only if it started unset and
    never touched the wallpaper. *)
Theorem held_state_is_last_call (observations : list observation)
  (s : daemon_state) :
  fst (ticks observations s)
  = state_after_calls s (snd (ticks observations s))
  ∧ (fst (ticks observations s) = Unknown ↔
     s = Unknown ∧ wallpaper_calls (snd (ticks observations s)) = []).
Proof.
  revert s. induction observations as [|obs rest IH]; intros s.
  - simpl. split; [done|]. tauto.
  - rewrite ticks_cons. cbn [fst snd].
    destruct (IH (fst (tick obs s))) as [IH1 IH2].
    destruct (tick_cases obs s) as [H|[[Hs H]|[[Hs [img H]]|[Hs H]]]];
      rewrite H in *; cbn [fst snd app state_after_calls] in *.
    + split; [done|]. rewrite IH2. unfold wallpaper_calls. simpl. tauto.
    + split; [done|]. rewrite IH2. unfold wallpaper_calls. simpl. tauto.
    + split; [done|]. rewrite IH2. unfold wallpaper_calls. simpl.
      split; [by intros [? _]|by intros [_ ?]].
    + split; [done|]. rewrite IH2. unfold wallpaper_calls. simpl.
      split; [by intros [? _]|by intros [_ ?]].
Qed.

(** X11.  The daemon sleeps CHECK_INTERVAL seconds once per tick and at no
    other time, the sleep is the last thing a tick does, and it touches
    the wallpaper at most once per tick. *)
Theorem daemon_paces_itself (observations : list observation)
  (s : daemon_state) :
  List.filter is_sleep (snd (ticks observations s))
  = repeat (Sleep CHECK_INTERVAL) (length observations)
  ∧ (length (wallpaper_calls (snd (ticks observations s)))
     ≤ length observations)%nat
  ∧ (∀ obs, ∃ before, snd (tick obs s) = before ++ [Sleep CHECK_INTERVAL]
                      ∧ List.filter is_sleep before = []).
Proof.
  split; [|split].
  - revert s. induction observations as [|obs rest IH]; intros s; [done|].
    rewrite ticks_cons. cbn [snd]. rewrite List.filter_app, IH.
    destruct (tick_cases obs s) as [H|[[Hs H]|[[Hs [img H]]|[Hs H]]]];
      by rewrite H.
  - revert s. induction observations as [|obs rest IH]; intros s; [done|].
    rewrite ticks_cons. cbn [snd]. unfold wallpaper_calls in *.
    rewrite List.filter_app, length_app.
    specialize (IH (fst (tick obs s))).
    destruct (tick_cases obs s) as [H|[[Hs H]|[[Hs [img H]]|[Hs H]]]];
      rewrite H in *; simpl in *; lia.
  - intros obs.
    destruct (tick_cases obs s) as [H|[[Hs H]|[[Hs [img H]]|[Hs H]]]];
      rewrite H; cbn [snd].
    + by exists [].
    + by exists [PrintDetected; PrintNoStaticImages].
    + by exists [PrintDetected; SetStaticWallpaper img].
    + by exists [PrintRestoring; RestoreWallpaperEngine].
Qed.




Lemma ticks_snoc observations obs s :
  fst (ticks (observations ++ [obs]) s)
  = fst (tick obs (fst (ticks observations s))).
Proof.
  revert s. induction observations as [|o rest IH]; intros s.
  - simpl. destruct (tick obs s). done.
  - rewrite <- app_comm_cons, !ticks_cons. cbn [fst]. apply IH.
Qed.

(** X13.  Whatever happened before, the state after a tick follows what
    that tick observed: Satellite when no deployment is seen, Static when
    one is seen and STATIC_DIR has an image, and the state held before
    when one is seen and there is no image. *)
Theorem arbiter_follows_the_watcher (observations : list observation)
  (obs : observation) (s : daemon_state) :
  (is_deploy_running (tasklist obs) = false →
   fst (ticks (observations ++ [obs]) s) = Satellite)
  ∧ (is_deploy_running (tasklist obs) = true →
     static_pool (files obs) ≠ [] →
     fst (ticks (observations ++ [obs]) s) = Static)
  ∧ (is_deploy_running (tasklist obs) = true →
     static_pool (files obs) = [] →
     fst (ticks (observations ++ [obs]) s) = fst (ticks observations s)).
Proof.
  rewrite ticks_snoc. set (s1 := fst (ticks observations s)).
  unfold tick. split; [|split].
  - intros ->. simpl. by destruct s1.
  - intros -> Hpool. simpl.
    unfold pick_random_static. cbv zeta.
    destruct (static_pool (files obs)) as [|c cs] eqn:E; [done|].
    unfold random_choice.
    destruct (nth_error (c :: cs) (draw obs mod length (c :: cs))) eqn:Hn.
    + by destruct s1.
    + apply nth_error_None in Hn.
      pose proof (Nat.mod_upper_bound (draw obs) (length (c :: cs))
                    ltac:(done)). lia.
  - intros -> Hpool. simpl.
    unfold pick_random_static. cbv zeta. rewrite Hpool. by destruct s1.
Qed.

End DaemonMore.

(** * The scenarios of the specification, run on the sample inputs *)

(** Frame renaming: the frames [b.png], [a.png], [c.png] of the latest run
    are staged in the order of their names. *)
Example staged_frames_follow_names :
  let w' := snd (stage_from_latest_run ["out"; "deska"] sample_world) in
  read_bytes (root w') ["out"; "deska"; "staging"; "frame_000.png"] = Ok png_a
  ∧ read_bytes (root w') ["out"; "deska"; "staging"; "frame_001.png"] = Ok png_b
  ∧ read_bytes (root w') ["out"; "deska"; "staging"; "frame_002.png"] = Ok png_c
  ∧ names_of (root w') ["out"; "deska"; "staging"]
    = ["frame_000.png"; "frame_001.png"; "frame_002.png";
       "current_manifest.json"].
Proof. repeat split; vm_compute; reflexivity. Qed.

(** End to end: the view [DeskA] is matched with the project filed under
    [deska], the newest run is staged and its frames reach the project. *)
Example end_to_end_deployment :
  let run := main string sample_canonicalize sample_canonicalize ["out"] false
               (Loaded ["DeskA"]) (Loaded sample_desk_projects) sample_world in
  fst run = Ok tt
  ∧ out (snd run)
    = [EDeploying "deska"; ELatestSource "aa_newest"; EStaging; EStaged 3;
       EDeployingFrames; EDeployed 3; EManifestWritten; ECleanupSkipped;
       EAllDone]
  ∧ read_bytes (root (snd run)) ["p1"; "materials"; "frame_000.png"] = Ok png_a
  ∧ read_bytes (root (snd run)) ["p1"; "current_manifest.json"]
    = Ok manifest_doc.
Proof. repeat split; vm_compute; reflexivity. Qed.

(** A view without a project is skipped and the batch goes on. *)
Example unmatched_view_is_skipped :
  out (snd (main string sample_canonicalize sample_canonicalize ["out"] true
              (Loaded ["Elsewhere"; "DeskA"]) (Loaded sample_desk_projects)
              sample_world))
  = [ESkipping "elsewhere"; EDeploying "deska"; ELatestSource "aa_newest";
     EStaging; EStaged 3; EStageOnly; ECleanupSkipped; EAllDone].
Proof. vm_compute. reflexivity. Qed.

(** The daemon over four ticks: a deploy seen twice, then gone twice. *)
Example daemon_sample_run :
  let busy := Observation (Ok "python.exe deploy-wallpaper.py")
                (Dir 0 [("static", Dir 0 [("moon.jpg", File 0 [])])]) 3 in
  let idle := Observation (Ok "explorer.exe") (Dir 0 []) 0 in
  daemon_loop ["static"] "deploy.exe" ascii_lower [busy; busy; idle; idle]
  = (Satellite,
     [PrintRunning;
      PrintDetected; SetStaticWallpaper ["static"; "moon.jpg"];
      Sleep CHECK_INTERVAL;
      Sleep CHECK_INTERVAL;
      PrintRestoring; RestoreWallpaperEngine; Sleep CHECK_INTERVAL;
      Sleep CHECK_INTERVAL]).
Proof. vm_compute. reflexivity. Qed.
